(** * lotus provider: verified-registry v10 adapter, window-post builder,
      worker task selection

    A shallow embedding of
      - chain/actors/builtin/verifreg/v10.go   (Module Verifreg)
      - provider/builder.go                    (Module Provider)
      - cmd/lotus-provider/run.go              (Module Run)
    together with the models of the chain scheduler, of the proof submit
    task and of the fault tracker that the design document describes
    (Modules ChainSched, SubmitTask, FaultTracker).

    Conventions.  A Go [error] is [option string]: [None] is [nil], [Some m]
    an error whose message is [m].  A Go function returning [(T, error)]
    that is only ever used through [if err != nil] is a sum [T + string].
    A method returning a tuple that callers inspect field by field keeps the
    tuple.  Caller-supplied callbacks are state transformers over the
    caller's own state. *)

From Stdlib Require Import ZArith List Lia Bool.
From stdpp Require Import base gmap strings list sorting.

Set Default Proof Using "Type".
Local Open Scope string_scope.
Local Open Scope Z_scope.

(** ** Go values shared by the three packages *)

Module Go.

Definition error : Type := option string.

(** [xerrors.Errorf(msg)] with a format that has no verbs. *)
Definition Errorf (msg : string) : error := Some msg.

(** [xerrors.Errorf(prefix + ": %w", err)] *)
Definition Wrapf (prefix : string) (cause : string) : string :=
  prefix ++ ": " ++ cause.

(** Go's [int] and [int64] are 64-bit two's complement. *)
Definition wrap64 (z : Z) : Z := (z + 2^63) mod 2^64 - 2^63.


(** [time.Duration] counts nanoseconds in an [int64]. *)
Definition Duration : Type := Z.
Definition Nanosecond : Duration := 1.
Definition Microsecond : Duration := wrap64 (1000 * Nanosecond).
Definition Millisecond : Duration := wrap64 (1000 * Microsecond).
Definition Second : Duration := wrap64 (1000 * Millisecond).

Definition dmul (k : Z) (d : Duration) : Duration := wrap64 (k * d).

End Go.

(** ** chain/actors/builtin/verifreg/v10.go *)

Module Verifreg.
Import Go.

(** [address.Address] and [cid.Cid] are both a struct around one string. *)
Definition Address : Type := string.
Definition Cid : Type := string.

(** [abi.StoragePower] is a big integer; the two ids are [uint64]. *)
Definition StoragePower : Type := Z.
Definition AllocationId : Type := N.
Definition ClaimId : Type := N.

Definition big_Zero : StoragePower := 0.

(** [actors.Version]; [actors.Version10] is 10. *)
Definition Version : Type := Z.
Definition Version10 : Version := 10.

Definition unsupported : string := "unsupported in actors v10".

Definition is_unsupported (e : error) : bool :=
  match e with
  | Some m => String.eqb m unsupported
  | None => false
  end.

Section State10.

(** [verifreg9.Allocation] and [verifreg9.Claim]: the adapter only
    passes them through. *)
Context {Allocation Claim : Type}.

(** Modelled from the spec: [verifreg10.State], the on-chain schema.
    [RootKey], [Verifiers] and [RemoveDataCapProposalIDs] are named in
    v10.go; [Allocations] and [Claims] are the tables behind
    FindAllocation and FindClaim. *)
Record State : Type := mkState {
  RootKey_ : Address;
  Verifiers : Cid;
  RemoveDataCapProposalIDs : Cid;
  Allocations : Cid;
  Claims : Cid
}.

(** Modelled from the spec: the objects an [adt.Store] holds for the
    verified registry.  The store and the HAMT code are not among the
    sources; a HAMT is a finite map, and the two-level allocation and
    claim tables are keyed by the client (provider) address first and
    the id second. *)
Inductive Node : Type :=
| NState (s : State)
| NCaps (m : gmap Address StoragePower)
| NAllocations (m : gmap Address (gmap AllocationId Allocation))
| NClaims (m : gmap Address (gmap ClaimId Claim)).

Definition Store : Type := gmap Cid Node.

(** Modelled from the spec: [store.Get(ctx, root, &out)] for a state
    object. *)
Definition Store_Get (st : Store) (root : Cid) : State + string :=
  match st !! root with
  | Some (NState s) => inl s
  | Some _ => inr "unexpected node type"
  | None => inr "ipld: could not find node"
  end.

(** [type state10 struct { verifreg10.State; store adt.Store }] *)
Record state10 : Type := mkState10 {
  State_ : State;
  store : Store
}.

(** An [adt.Map] as this file uses it: address to datacap. *)
Definition adtMap : Type := gmap Address StoragePower.

(** Modelled from the spec: [adt10.AsMap], which loads the HAMT rooted
    at a cid and fails when the store has no such table. *)
Definition AsMap (st : Store) (root : Cid) : adtMap + string :=
  match st !! root with
  | Some (NCaps m) => inl m
  | Some _ => inr "unexpected node type"
  | None => inr "ipld: could not find node"
  end.



(** The state a callback closes over, and the callback itself:
    [func(addr address.Address, dcap abi.StoragePower) error]. *)
Context {W : Type}.
Definition Callback : Type := Address -> StoragePower -> W -> W * error.

(** Modelled from the spec: [adt.Map.ForEach] (not among the sources),
    which visits the entries in key order and stops at the first error of
    the callback. *)
Fixpoint forEachEntry (cb : Callback) (l : list (Address * StoragePower))
    (w : W) : W * error :=
  match l with
  | [] => (w, None)
  | (a, d) :: l' =>
      match cb a d w with
      | (w', None) => forEachEntry cb l' w'
      | (w', Some e) => (w', Some e)
      end
  end.

(** Modelled from the spec: [forEachCap], the helper of this package
    behind for_each_verifier(fn): load the table through [root], then
    call [cb] on every entry. *)
Definition forEachCap (st : Store) (ver : Version)
    (root : unit -> adtMap + string) (cb : Callback) (w : W) : W * error :=
  match root tt with
  | inr e => (w, Errorf (Wrapf "loading verified clients" e))
  | inl vh => forEachEntry cb (map_to_list vh) w
  end.

(** *** The methods of [*state10], in the order of v10.go *)

Definition RootKey (s : state10) : Address * error :=
  (RootKey_ (State_ s), None).

Definition VerifiedClientDataCap (s : state10) (addr : Address)
    : bool * StoragePower * error :=
  (false, big_Zero, Errorf unsupported).

Definition verifiers (s : state10) (_ : unit) : adtMap + string :=
  AsMap (store s) (Verifiers (State_ s)).

Definition verifiedClients (s : state10) (_ : unit) : adtMap + string :=
  inr unsupported.

Definition ForEachVerifier (s : state10) (cb : Callback) (w : W)
    : W * error :=
  forEachCap (store s) Version10 (verifiers s) cb w.

Definition ForEachClient (s : state10) (cb : Callback) (w : W)
    : W * error :=
  (w, Errorf unsupported).



(** [load10]: read the state object at [root]; the adapter keeps the
    store it was read from. *)
Definition load10 (st : Store) (root : Cid) : state10 + string :=
  match Store_Get st root with
  | inr err => inr err
  | inl out => inl {| State_ := out; store := st |}
  end.

End State10.

Arguments Node : clear implicits.
Arguments Store : clear implicits.
Arguments state10 : clear implicits.
Arguments Callback : clear implicits.

End Verifreg.

(** ** A trace of the calls a function makes into other packages *)

Module Trace.

Definition M (E A : Type) : Type := list E * A.

Definition ret {E A} (a : A) : M E A := ([], a).

Definition bind {E A B} (m : M E A) (k : A -> M E B) : M E B :=
  let '(t, a) := m in
  let '(t', b) := k a in
  ((t ++ t')%list, b).

(** Record the call [e] and continue with its result [a]. *)
Definition call {E A} (e : E) (a : A) : M E A := ([e], a).

Definition trace {E A} (m : M E A) : list E := fst m.
Definition result {E A} (m : M E A) : A := snd m.

End Trace.

Declare Scope trace_scope.
Delimit Scope trace_scope with trace.
Notation "x <- c ;; k" := (Trace.bind c (fun x => k))
  (at level 100, c at next level, right associativity) : trace_scope.
Notation "c ;;; k" := (Trace.bind c (fun _ => k))
  (at level 100, right associativity) : trace_scope.

(** ** The types the provider packages exchange

    Handles to the node API, the database, the stores and so on are opaque
    to builder.go and run.go; so are the objects built by the packages
    chainsched, lpmessage, lpwindow, lpwinning and harmonytask. *)

Record Handles : Type := mkHandles {
  Ctx : Type;                (* context.Context *)
  ProvingConfig : Type;      (* config.ProvingConfig *)
  FullNode : Type;           (* api.FullNode *)
  Verifier : Type;           (* storiface.Verifier *)
  LocalWorker : Type;        (* *sealer.LocalWorker *)
  AddressSelector : Type;    (* *ctladdr.AddressSelector *)
  MinerAddress : Type;       (* dtypes.MinerAddress *)
  DB : Type;                 (* *harmonydb.DB *)
  PathsStore : Type;         (* paths.Store, *paths.Remote *)
  SectorIndex : Type;        (* paths.SectorIndex, *paths.DBIndex *)
  LocalStore : Type;         (* *paths.Local *)
  ProviderChainSched : Type; (* *chainsched.ProviderChainSched *)
  FaultTracker : Type;       (* lpwindow.SimpleFaultTracker *)
  Sender : Type;             (* *lpmessage.Sender *)
  WdPostTask : Type;         (* *lpwindow.WdPostTask *)
  WdPostSubmitTask : Type;   (* *lpwindow.WdPostSubmitTask *)
  WdPostRecoverTask : Type;  (* the third task run.go takes from the scheduler *)
  WinPostTask : Type;        (* *lpwinning.WinPostTask *)
  TaskEngine : Type          (* *harmonytask.TaskEngine *)
}.

(** [config.LotusProviderFees]; [types.FIL] is a big integer of attoFIL.
    builder.go reads one field. *)
Record LotusProviderFees : Type := mkFees {
  MaxWindowPoStGasFee : Z
}.

(** ** provider/builder.go *)

Module Provider.
Import Go Trace.

Section Builder.
Context {H : Handles}.

(** The constructors builder.go calls in chainsched, lpwindow and
    lpmessage. *)
Record Packages : Type := mkPackages {
  chainsched_New : FullNode H -> ProviderChainSched H;
  NewSimpleFaultTracker :
    PathsStore H -> SectorIndex H -> Z -> Duration -> Duration ->
    FaultTracker H;
  NewSender : FullNode H -> FullNode H -> DB H -> Sender H;
  NewWdPostTask :
    DB H -> FullNode H -> FaultTracker H -> LocalWorker H ->
    Verifier H -> ProviderChainSched H -> list (MinerAddress H) -> Z ->
    WdPostTask H + string;
  NewWdPostSubmitTask :
    ProviderChainSched H -> Sender H -> DB H -> FullNode H -> Z ->
    AddressSelector H -> WdPostSubmitTask H + string
}.

(** One entry per statement of WindowPostScheduler that leaves the
    function: the five constructor calls with their arguments, and the
    [go chainSched.Run(ctx)] statement. *)
Inductive Event : Type :=
| Call_chainsched_New (api : FullNode H)
| Call_NewSimpleFaultTracker (stor : PathsStore H) (idx : SectorIndex H)
    (limit : Z) (d1 d2 : Duration)
| Call_NewSender (api1 api2 : FullNode H) (db : DB H)
| Call_NewWdPostTask (db : DB H) (api : FullNode H) (ft : FaultTracker H)
    (lw : LocalWorker H) (verif : Verifier H)
    (pcs : ProviderChainSched H) (maddr : list (MinerAddress H))
    (max : Z)
| Call_NewWdPostSubmitTask (pcs : ProviderChainSched H) (send : Sender H)
    (db : DB H) (api : FullNode H) (maxFee : Z)
    (as_ : AddressSelector H)
| Go_Run (pcs : ProviderChainSched H) (ctx : Ctx H).

Definition Result : Type :=
  (option (WdPostTask H) * option (WdPostSubmitTask H) * error)%type.

Variable P : Packages.

Definition WindowPostScheduler (ctx : Ctx H) (fc : LotusProviderFees)
    (pc : ProvingConfig H) (api : FullNode H) (verif : Verifier H)
    (lw : LocalWorker H) (as_ : AddressSelector H)
    (maddr : list (MinerAddress H)) (db : DB H) (stor : PathsStore H)
    (idx : SectorIndex H) (max : Z) : M Event Result :=
  (chainSched <- call (Call_chainsched_New api) (chainsched_New P api) ;;
   ft <- call
       (Call_NewSimpleFaultTracker stor idx 32 (dmul 5 Second)
          (dmul 300 Second))
       (NewSimpleFaultTracker P stor idx 32 (dmul 5 Second)
          (dmul 300 Second)) ;;
   sender <- call (Call_NewSender api api db) (NewSender P api api db) ;;
   r1 <- call
       (Call_NewWdPostTask db api ft lw verif chainSched maddr max)
       (NewWdPostTask P db api ft lw verif chainSched maddr max) ;;
   match r1 with
   | inr err => ret (None, None, Some err)
   | inl computeTask =>
       r2 <- call
           (Call_NewWdPostSubmitTask chainSched sender db api
              (MaxWindowPoStGasFee fc) as_)
           (NewWdPostSubmitTask P chainSched sender db api
              (MaxWindowPoStGasFee fc) as_) ;;
       match r2 with
       | inr err => ret (None, None, Some err)
       | inl submitTask =>
           call (Go_Run chainSched ctx) tt ;;;
           ret (Some computeTask, Some submitTask, None)
       end
   end)%trace.

(** Observations on a trace. *)
Definition is_Go_Run (e : Event) : bool :=
  match e with Go_Run _ _ => true | _ => false end.

Definition is_submit_ctor (e : Event) : bool :=
  match e with Call_NewWdPostSubmitTask _ _ _ _ _ _ => true | _ => false end.

Definition is_compute_ctor (e : Event) : bool :=
  match e with Call_NewWdPostTask _ _ _ _ _ _ _ _ => true | _ => false end.

Definition count (p : Event -> bool) (t : list Event) : nat :=
  length (filter (fun e => p e = true) t).

(** The bound handed to the compute task's constructor. *)
Definition compute_max (t : list Event) : list Z :=
  omap (fun e => match e with
                 | Call_NewWdPostTask _ _ _ _ _ _ _ max => Some max
                 | _ => None end) t.

(** The fee ceiling handed to the submit task's constructor. *)
Definition submit_maxFee (t : list Event) : list Z :=
  omap (fun e => match e with
                 | Call_NewWdPostSubmitTask _ _ _ _ fee _ => Some fee
                 | _ => None end) t.


End Builder.

Arguments Packages : clear implicits.
Arguments Event : clear implicits.
Arguments Result : clear implicits.

(** *** The ways through WindowPostScheduler *)

Section Paths.
Context {H : Handles} (P : Packages H).
Variables (ctx : Ctx H) (fc : LotusProviderFees) (pc : ProvingConfig H)
  (api : FullNode H) (verif : Verifier H) (lw : LocalWorker H)
  (as_ : AddressSelector H) (maddr : list (MinerAddress H)) (db : DB H)
  (stor : PathsStore H) (idx : SectorIndex H) (max : Z).

(** The objects of the first three statements. *)
Definition the_chainSched : ProviderChainSched H := chainsched_New P api.
Definition the_ft : FaultTracker H :=
  NewSimpleFaultTracker P stor idx 32 (dmul 5 Second) (dmul 300 Second).
Definition the_sender : Sender H := NewSender P api api db.

(** The outcome of the two fallible constructors on those objects. *)
Definition compute_result : WdPostTask H + string :=
  NewWdPostTask P db api the_ft lw verif the_chainSched maddr max.
Definition submit_result : WdPostSubmitTask H + string :=
  NewWdPostSubmitTask P the_chainSched the_sender db api
    (MaxWindowPoStGasFee fc) as_.

(** The calls every invocation makes, in order. *)
Definition prefix : list (Event H) :=
  [Call_chainsched_New api;
   Call_NewSimpleFaultTracker stor idx 32 (dmul 5 Second) (dmul 300 Second);
   Call_NewSender api api db;
   Call_NewWdPostTask db api the_ft lw verif the_chainSched maddr max].

Definition submit_call : Event H :=
  Call_NewWdPostSubmitTask the_chainSched the_sender db api
    (MaxWindowPoStGasFee fc) as_.

End Paths.

End Provider.

(** ** cmd/lotus-provider/run.go *)

Module Run.
Import Go Trace.

(** [config.ProviderSubsystemsConfig], the fields run.go reads. *)
Record SubsystemsConfig : Type := mkSubsystems {
  EnableWindowPost : bool;
  WindowPostMaxTasks : Z;
  EnableWinningPost : bool;
  WinningPostMaxTasks : Z
}.

Section Worker.
Context {H : Handles}.

(** [config.LotusProviderConfig], the fields run.go reads. *)
Record LotusProviderConfig : Type := mkConfig {
  Subsystems : SubsystemsConfig;
  Fees : LotusProviderFees;
  Proving : ProvingConfig H
}.

(** [type Deps struct] *)
Record Deps : Type := mkDeps {
  cfg : LotusProviderConfig;
  db : DB H;
  full : FullNode H;
  verif : Verifier H;
  lw : LocalWorker H;
  as_ : AddressSelector H;
  maddrs : list (MinerAddress H);
  stor : PathsStore H;
  si : SectorIndex H;
  localStore : LocalStore H;
  listenAddr : string
}.

(** [harmonytask.TaskInterface]: the values run.go stores in
    [activeTasks]. *)
Inductive TaskInterface : Type :=
| TWdPost (t : WdPostTask H)
| TWdPostSubmit (t : WdPostSubmitTask H)
| TWdPostRecover (t : WdPostRecoverTask H)
| TWinPost (t : WinPostTask H).

Definition is_window_post (t : TaskInterface) : bool :=
  match t with
  | TWdPost _ | TWdPostSubmit _ | TWdPostRecover _ => true
  | TWinPost _ => false
  end.

Definition is_winning_post (t : TaskInterface) : bool :=
  match t with TWinPost _ => true | _ => false end.

(** What the action calls outside run.go's task selection: the command
    line, the process environment, getDeps, and the packages provider
    (as run.go calls it: three tasks and an error), lpwinning and
    harmonytask. *)
Record World : Type := mkWorld {
  cctx_Bool : string -> bool;
  os_Setenv : string -> string -> error;
  ManageFdLimit : error;
  DaemonContext : Ctx H;
  getDeps : Ctx H -> Deps + string;
  provider_WindowPostScheduler :
    Ctx H -> LotusProviderFees -> ProvingConfig H -> FullNode H ->
    Verifier H -> LocalWorker H -> AddressSelector H ->
    list (MinerAddress H) -> DB H -> PathsStore H -> SectorIndex H ->
    Z ->
    (WdPostTask H * WdPostSubmitTask H * WdPostRecoverTask H) + string;
  NewWinPostTask :
    Z -> DB H -> LocalWorker H -> Verifier H -> FullNode H ->
    list (MinerAddress H) -> WinPostTask H;
  harmonytask_New :
    DB H -> list TaskInterface -> string -> TaskEngine H + string
}.

Inductive Event : Type :=
| Call_Setenv (key value : string)
| Call_ManageFdLimit
| Log_Errorf (msg : string)
| Call_getDeps
| Call_WindowPostScheduler (ctx : Ctx H) (fc : LotusProviderFees)
    (pc : ProvingConfig H) (api : FullNode H) (verif : Verifier H)
    (lw : LocalWorker H) (as_ : AddressSelector H)
    (maddr : list (MinerAddress H)) (db : DB H) (stor : PathsStore H)
    (idx : SectorIndex H) (max : Z)
| Call_NewWinPostTask (max : Z) (db : DB H) (lw : LocalWorker H)
    (verif : Verifier H) (api : FullNode H)
    (maddr : list (MinerAddress H))
| Log_tasks (tasks : list TaskInterface)
| Call_harmonytask_New (db : DB H) (tasks : list TaskInterface)
    (listenAddr : string)
| Serve_until_shutdown
| Call_GracefullyTerminate (e : TaskEngine H) (d : Duration).

Variable Wd : World.

(** The block under "Task Selection": [activeTasks] starts nil and grows
    by [append]; an error of the scheduler leaves the action. *)
Definition selectTasks (ctx : Ctx H) (d : Deps)
    : M Event (list TaskInterface + string) :=
  (let c := cfg d in
   let activeTasks : list TaskInterface := [] in
   r1 <- (if EnableWindowPost (Subsystems c) then
            r <- call
                (Call_WindowPostScheduler ctx (Fees c) (Proving c)
                   (full d) (verif d) (lw d) (as_ d) (maddrs d) (db d)
                   (stor d) (si d) (WindowPostMaxTasks (Subsystems c)))
                (provider_WindowPostScheduler Wd ctx (Fees c) (Proving c)
                   (full d) (verif d) (lw d) (as_ d) (maddrs d) (db d)
                   (stor d) (si d) (WindowPostMaxTasks (Subsystems c))) ;;
            match r with
            | inr err => ret (inr err)
            | inl (wdPostTask, wdPoStSubmitTask, derlareRecoverTask) =>
                ret (inl (activeTasks ++
                          [TWdPost wdPostTask;
                           TWdPostSubmit wdPoStSubmitTask;
                           TWdPostRecover derlareRecoverTask])%list)
            end
          else ret (inl activeTasks)) ;;
   match r1 with
   | inr err => ret (inr err)
   | inl activeTasks =>
       if EnableWinningPost (Subsystems c) then
         winPoStTask <- call
             (Call_NewWinPostTask (WinningPostMaxTasks (Subsystems c))
                (db d) (lw d) (verif d) (full d) (maddrs d))
             (NewWinPostTask Wd (WinningPostMaxTasks (Subsystems c))
                (db d) (lw d) (verif d) (full d) (maddrs d)) ;;
         ret (inl (activeTasks ++ [TWinPost winPoStTask])%list)
       else ret (inl activeTasks)
   end)%trace.

(** [runCmd.Action]. *)
Definition Action : M Event error :=
  (r0 <- (if negb (cctx_Bool Wd "enable-gpu-proving") then
            call (Call_Setenv "BELLMAN_NO_GPU" "true")
              (os_Setenv Wd "BELLMAN_NO_GPU" "true")
          else ret None) ;;
   match r0 with
   | Some err => ret (Some err)
   | None =>
       let ctx := DaemonContext Wd in
       (if cctx_Bool Wd "manage-fdlimit" then
          r <- call Call_ManageFdLimit (ManageFdLimit Wd) ;;
          match r with
          | Some err =>
              call (Log_Errorf ("setting file descriptor limit: " ++ err)) tt
          | None => ret tt
          end
        else ret tt) ;;;
       rd <- call Call_getDeps (getDeps Wd ctx) ;;
       match rd with
       | inr err => ret (Some err)
       | inl deps =>
           rt <- selectTasks ctx deps ;;
           match rt with
           | inr err => ret (Some err)
           | inl activeTasks =>
               call (Log_tasks activeTasks) tt ;;;
               re <- call
                   (Call_harmonytask_New (db deps) activeTasks
                      (listenAddr deps))
                   (harmonytask_New Wd (db deps) activeTasks
                      (listenAddr deps)) ;;
               match re with
               | inr err => ret (Some err)
               | inl taskEngine =>
                   call Serve_until_shutdown tt ;;;
                   call (Call_GracefullyTerminate taskEngine
                           (dmul 3600 Second)) tt ;;;
                   ret None
               end
           end
       end
   end)%trace.

(** The task lists handed to [harmonytask.New] in a trace. *)
Definition registered (t : list Event) : list (list TaskInterface) :=
  omap (fun e => match e with
                 | Call_harmonytask_New _ tasks _ => Some tasks
                 | _ => None end) t.

(** The bounds handed to the window-post scheduler in a trace. *)
Definition scheduler_max (t : list Event) : list Z :=
  omap (fun e => match e with
                 | Call_WindowPostScheduler _ _ _ _ _ _ _ _ _ _ _ max =>
                     Some max
                 | _ => None end) t.

(** What the scheduler call of the task selection returns. *)
Definition scheduler_result (ctx : Ctx H) (d : Deps)
    : (WdPostTask H * WdPostSubmitTask H * WdPostRecoverTask H) + string :=
  provider_WindowPostScheduler Wd ctx (Fees (cfg d)) (Proving (cfg d))
    (full d) (verif d) (lw d) (as_ d) (maddrs d) (db d) (stor d) (si d)
    (WindowPostMaxTasks (Subsystems (cfg d))).

(** The tasks each enabled subsystem contributes. *)
Definition window_tasks (ctx : Ctx H) (d : Deps) : list TaskInterface :=
  if EnableWindowPost (Subsystems (cfg d)) then
    match scheduler_result ctx d with
    | inl (wdPostTask, wdPoStSubmitTask, derlareRecoverTask) =>
        [TWdPost wdPostTask; TWdPostSubmit wdPoStSubmitTask;
         TWdPostRecover derlareRecoverTask]
    | inr _ => []
    end
  else [].

Definition winning_tasks (d : Deps) : list TaskInterface :=
  if EnableWinningPost (Subsystems (cfg d)) then
    [TWinPost (NewWinPostTask Wd (WinningPostMaxTasks (Subsystems (cfg d)))
                 (db d) (lw d) (verif d) (full d) (maddrs d))]
  else [].

(** The environment lets the action reach getDeps, and getDeps succeeds. *)
Definition setenv_result : error :=
  if negb (cctx_Bool Wd "enable-gpu-proving") then
    os_Setenv Wd "BELLMAN_NO_GPU" "true"
  else None.


(** The two calls of the task selection, with the arguments run.go gives
    them. *)
Definition scheduler_call (ctx : Ctx H) (d : Deps) : Event :=
  Call_WindowPostScheduler ctx (Fees (cfg d)) (Proving (cfg d)) (full d)
    (verif d) (lw d) (as_ d) (maddrs d) (db d) (stor d) (si d)
    (WindowPostMaxTasks (Subsystems (cfg d))).

Definition winning_call (d : Deps) : Event :=
  Call_NewWinPostTask (WinningPostMaxTasks (Subsystems (cfg d))) (db d)
    (lw d) (verif d) (full d) (maddrs d).

(** The calls of the action up to and including getDeps. *)
Definition prelude : list Event :=
  ((if negb (cctx_Bool Wd "enable-gpu-proving") then
      [Call_Setenv "BELLMAN_NO_GPU" "true"]
    else [])
   ++ (if cctx_Bool Wd "manage-fdlimit" then
         Call_ManageFdLimit
         :: match ManageFdLimit Wd with
            | Some err =>
                [Log_Errorf ("setting file descriptor limit: " ++ err)]
            | None => []
            end
       else [])
   ++ [Call_getDeps])%list.

(** Observations on the calls of the action. *)
Definition is_terminate (e : Event) : bool :=
  match e with Call_GracefullyTerminate _ _ => true | _ => false end.

Definition is_serve (e : Event) : bool :=
  match e with Serve_until_shutdown => true | _ => false end.

Definition is_setenv (e : Event) : bool :=
  match e with Call_Setenv _ _ => true | _ => false end.

Definition is_errorf (e : Event) : bool :=
  match e with Log_Errorf _ => true | _ => false end.

(** The calls of a trace other than the error log. *)
Definition without_errorf (t : list Event) : list Event :=
  filter (fun e => is_errorf e = false) t.

Definition is_winning_ctor (e : Event) : bool :=
  match e with Call_NewWinPostTask _ _ _ _ _ _ => true | _ => false end.

Definition occurrences (p : Event -> bool) (t : list Event) : nat :=
  length (filter (fun e => p e = true) t).

(** The same world, in which [ulimit.ManageFdLimit] answers [e]. *)
Definition with_ManageFdLimit (e : error) (W : World) : World :=
  {| cctx_Bool := cctx_Bool W;
     os_Setenv := os_Setenv W;
     ManageFdLimit := e;
     DaemonContext := DaemonContext W;
     getDeps := getDeps W;
     provider_WindowPostScheduler := provider_WindowPostScheduler W;
     NewWinPostTask := NewWinPostTask W;
     harmonytask_New := harmonytask_New W |}.

End Worker.

Arguments LotusProviderConfig : clear implicits.
Arguments Deps : clear implicits.
Arguments TaskInterface : clear implicits.
Arguments World : clear implicits.
Arguments Event : clear implicits.

End Run.

(** ** The chain scheduler (package chainsched) *)

Module ChainSched.

Section Sched.
(** A chain head (a block id of the chain-state reader). *)
Context {Head : Type}.

(** A chain-head notification: the height of the new head, the reader's
    [head_at] on the new head's lineage, and, when the lineage diverged
    from the recorded one, the height of the common ancestor. *)
Record Notification : Type := mkNotification {
  height : Z;
  head_at : Z -> Head;
  ancestor : option Z
}.

(** One callback invocation [(chain_head, epoch)] of the callback
    registered under [inv_cb]. *)
Record Invocation : Type := mkInvocation {
  inv_cb : nat;
  inv_head : Head;
  inv_epoch : Z
}.

(** Modelled from the spec: the reorg rule of the chain scheduler
    (chainsched is not among the sources).  Every epoch strictly above
    the common ancestor that had fired counts as unfired again: the
    Chain Epoch Cursor falls back to the ancestor. *)
Definition unfire (cursor : Z) (n : Notification) : Z :=
  match ancestor n with
  | Some a => Z.min cursor a
  | None => cursor
  end.

(** Modelled from the spec: the newest finalized epoch is the head
    height minus the configured lag. *)
Definition finalized (lag : Z) (n : Notification) : Z := height n - lag.

(** The epochs after [cursor] up to [target], ascending. *)
Definition due (cursor target : Z) : list Z :=
  seqZ (cursor + 1) (target - cursor).

(** Every registered callback, in registration order, on the head as of
    epoch [e]. *)
Definition fire (cbs : list nat) (n : Notification) (e : Z)
    : list Invocation :=
  (fun cb => mkInvocation cb (head_at n e) e) <$> cbs.

(** The invocations for a list of epochs, epoch by epoch. *)
Definition fire_all (cbs : list nat) (n : Notification) (es : list Z)
    : list Invocation :=
  mjoin (fire cbs n <$> es).

(** Modelled from the spec: the scheduler's step function of section
    4.1, with the Chain Epoch Cursor passed in and returned (design
    note 1).  A revert by itself invokes nothing; the newly finalized
    epochs since the cursor fire in ascending order. *)
Definition step (lag : Z) (cbs : list nat) (cursor : Z)
    (n : Notification) : Z * list Invocation :=
  let c := unfire cursor n in
  let target := finalized lag n in
  (Z.max c target, fire_all cbs n (due c target)).

(** The single scheduling loop over a stream of notifications. *)
Fixpoint run (lag : Z) (cbs : list nat) (cursor : Z)
    (ns : list Notification) : Z * list Invocation :=
  match ns with
  | [] => (cursor, [])
  | n :: ns' =>
      let '(c, l) := step lag cbs cursor n in
      let '(c', l') := run lag cbs c ns' in
      (c', (l ++ l')%list)
  end.

(** How often callback [cb] was invoked for epoch [e]. *)
Definition fired (cb : nat) (e : Z) (l : list Invocation) : nat :=
  length (filter (fun i => inv_cb i = cb /\ inv_epoch i = e) l).

Definition no_reorg (ns : list Notification) : Prop :=
  Forall (fun n => ancestor n = None) ns.

(** How often callback [cb] is in the registry. *)
Definition registrations (cb : nat) (cbs : list nat) : nat :=
  length (filter (fun c => c = cb) cbs).

End Sched.

Arguments Notification : clear implicits.
Arguments Invocation : clear implicits.

End ChainSched.

(** ** The proof submit task (package lpwindow) and its collaborators *)

Module SubmitTask.

(** A sender address as the Address Selector sees it: the funds it holds
    and the fee a submission from it requires at current conditions. *)
Record Candidate : Type := mkCandidate {
  c_addr : string;
  c_balance : Z;
  c_fee : Z
}.

(** An Outbox Message row. *)
Record Message : Type := mkMessage {
  m_sender : string;
  m_nonce : nat;
  m_payload : string;
  m_max_fee : Z
}.

Inductive Status : Type := Pending | Running | Done | Failed.
Inductive Alert : Type := Unaffordable | DeadlineExpired.

(** What polling the Message Sender ends with. *)
Inductive Poll : Type := Confirmed | BroadcastFailed | Expired.

(** The task as its constructor receives it: the fee ceiling. *)
Record Task : Type := mkTask { maxFee : Z }.

Record Outcome : Type := mkOutcome {
  status : Status;
  alerts : list Alert;
  outbox : list Message;
  retry : bool
}.

(** Modelled from the spec: the constructor of the Proof Submit Task
    (lpwindow is not among the sources) keeps the ceiling it is given. *)
Definition NewTask (maxFee : Z) : Task := mkTask maxFee.

(** Modelled from the spec: an address can afford a transaction within
    the ceiling when the fee it requires is within the ceiling and within
    its balance. *)
Definition affordable (ceiling : Z) (c : Candidate) : bool :=
  (c_fee c <=? ceiling) && (c_fee c <=? c_balance c).

(** Modelled from the spec: the Address Selector picks the first
    affordable sender. *)
Definition select (ceiling : Z) (cs : list Candidate) : option Candidate :=
  find (affordable ceiling) cs.

(** Modelled from the spec: Message Sender submit; the nonce is the
    number of rows the sender already has. *)
Definition submit (ob : list Message) (sender payload : string)
    (max_fee : Z) : list Message :=
  let nonce := length (filter (fun m => m_sender m = sender) ob) in
  (ob ++ [mkMessage sender nonce payload max_fee])%list.

(** Modelled from the spec: the Proof Submit Task of section 4.4.  With
    no affordable sender the task fails at once: terminal, with an alert,
    nothing handed to the outbox.  Otherwise the payload goes to the
    Message Sender and the task follows the status it polls. *)
Definition Do (t : Task) (cs : list Candidate) (payload : string)
    (p : Poll) (ob : list Message) : Outcome :=
  match select (maxFee t) cs with
  | None => mkOutcome Failed [Unaffordable] ob false
  | Some c =>
      let ob' := submit ob (c_addr c) payload (maxFee t) in
      match p with
      | Confirmed => mkOutcome Done [] ob' false
      | Expired => mkOutcome Failed [DeadlineExpired] ob' false
      | BroadcastFailed => mkOutcome Pending [] ob' true
      end
  end.

End SubmitTask.

(** ** The fault tracker (package lpwindow) *)

Module FaultTracker.
Import Go.

(** A sector identifier. *)
Definition SectorId : Type := N.

(** A Sector Health Entry: when the sector was last checked (nanoseconds)
    and whether it was reachable then. *)
Record Entry : Type := mkEntry {
  last_checked : Z;
  reachable : bool
}.

(** Modelled from the spec: the Fault Tracker (lpwindow is not among the
    sources), with the number of checks it runs at a time, the bound on
    one reachability check, the TTL of a cached entry, and the Sector
    Health cache. *)
Record Tracker : Type := mkTracker {
  parallel : Z;
  probe_timeout : Duration;
  ttl : Duration;
  cache : gmap SectorId Entry
}.

(** Modelled from the spec: the constructor NewSimpleFaultTracker of
    lpwindow, after the store and the index: it keeps the limit, the
    probe timeout and the TTL it is given, in this order, and starts with
    an empty cache. *)
Definition New (limit : Z) (timeout ttl : Duration) : Tracker :=
  mkTracker limit timeout ttl ∅.

(** The storage behind a check: how long reading the metadata of a
    sector takes and whether it can be read; [None] is a storage that
    never answers. *)
Definition Storage : Type := SectorId -> option (Duration * bool).

(** Modelled from the spec: the bounded-time reachability check.  A read
    that has not answered within the probe timeout is given up at the
    timeout and counts as unhealthy.  Returns the time spent and the
    outcome. *)
Definition check (t : Tracker) (st : Storage) (s : SectorId)
    : Duration * bool :=
  match st s with
  | Some (d, ok) =>
      if d <=? probe_timeout t then (d, ok) else (probe_timeout t, false)
  | None => (probe_timeout t, false)
  end.

(** Modelled from the spec: an entry older than its TTL is unknown. *)
Definition fresh (t : Tracker) (now : Z) (e : Entry) : bool :=
  now - last_checked e <=? ttl t.

(** What a probe of one sector yields: the tracker with its cache, the
    answer, the number of reachability checks made and the time they
    took. *)
Record Probe : Type := mkProbe {
  tracker : Tracker;
  healthy : bool;
  checks : nat;
  spent : Duration
}.

(** Modelled from the spec: the probe of one sector at time [now].  A
    fresh entry answers without I/O; a stale or missing one is checked
    and the outcome, a failure included, overwrites the entry. *)
Definition probe_one (t : Tracker) (st : Storage) (now : Z) (s : SectorId)
    : Probe :=
  let recheck :=
    let '(d, ok) := check t st s in
    mkProbe (mkTracker (parallel t) (probe_timeout t) (ttl t)
               (<[s := mkEntry now ok]> (cache t)))
            ok 1 d in
  match cache t !! s with
  | Some e => if fresh t now e then mkProbe t (reachable e) 0 0 else recheck
  | None => recheck
  end.


End FaultTracker.

(** ** Observers used in the statements below *)

Module Observe.
Import Go Verifreg.

Section Lookups.
Context {Allocation Claim : Type}.



(** A callback instrumented with the number of times it has run. *)
Definition counted {W : Type} (cb : Callback W) : Callback (nat * W) :=
  fun a d nw =>
    let '(w', e) := cb a d (snd nw) in
    ((S (fst nw), w'), e).

End Lookups.

Definition value {A} (r : option A * bool * error) : option A := fst (fst r).
Definition err3 {A B} (r : A * B * error) : error := snd r.

End Observe.

(** ** Concrete inputs *)

Module Sample.
Import Go.

(** A registry with two verifiers, one client holding allocation 7, and
    one provider holding claim 3. *)
Definition state : @Verifreg.State :=
  Verifreg.mkState "f080" "verifiers" "proposals" "allocations" "claims".

Definition store : Verifreg.Store nat nat :=
  <["root" := Verifreg.NState state]>
  (<["verifiers" :=
       Verifreg.NCaps (<["f081" := 100]> (<["f082" := 250]> ∅))]>
  (<["allocations" :=
       Verifreg.NAllocations
         (<["f01000" := <[7%N := 42%nat]> ∅]> ∅)]>
  (<["claims" :=
       Verifreg.NClaims (<["f02000" := <[3%N := 17%nat]> ∅]> ∅)]> ∅))).

Definition s10 : Verifreg.state10 nat nat :=
  Verifreg.mkState10 state store.

(** A callback that sums the datacaps it is shown. *)
Definition sum_cb : Verifreg.Callback Z :=
  fun _ d acc => (acc + d, None).


(** Handles are plain numbers; the compute task remembers its bound, the
    submit task is the task of [SubmitTask]. *)
Definition H : Handles :=
  {| Ctx := unit; ProvingConfig := nat; FullNode := nat; Verifier := nat;
     LocalWorker := nat; AddressSelector := nat; MinerAddress := string;
     DB := nat; PathsStore := nat; SectorIndex := nat; LocalStore := nat;
     ProviderChainSched := nat; FaultTracker := Z * Duration * Duration;
     Sender := nat; WdPostTask := Z; WdPostSubmitTask := SubmitTask.Task;
     WdPostRecoverTask := nat; WinPostTask := Z; TaskEngine := nat |}.

(** The packages behind builder.go; the two flags say whether the compute
    and the submit constructor succeed. *)
Definition packages (compute_ok submit_ok : bool) : Provider.Packages H :=
  {| Provider.chainsched_New := fun api => 1%nat : ProviderChainSched H;
     Provider.NewSimpleFaultTracker :=
       fun _ _ n d1 d2 => (n, d1, d2) : FaultTracker H;
     Provider.NewSender := fun _ _ _ => 2%nat : Sender H;
     Provider.NewWdPostTask :=
       fun _ _ _ _ _ _ _ max =>
         if compute_ok then inl (max : WdPostTask H)
         else inr "adding handler failed";
     Provider.NewWdPostSubmitTask :=
       fun _ _ _ _ fee _ =>
         if submit_ok then inl (SubmitTask.NewTask fee : WdPostSubmitTask H)
         else inr "adding handler failed" |}.

Definition fees : LotusProviderFees := mkFees 100.

Definition config (window winning : bool) : Run.LotusProviderConfig H :=
  Run.mkConfig (Run.mkSubsystems window 4 winning 2) fees (0%nat : ProvingConfig H).

Definition deps (window winning : bool) : Run.Deps H :=
  @Run.mkDeps H (config window winning) (10%nat : DB H) (11%nat : FullNode H)
    (12%nat : Verifier H) (13%nat : LocalWorker H)
    (14%nat : AddressSelector H) (["f01234"] : list (MinerAddress H))
    (15%nat : PathsStore H) (16%nat : SectorIndex H)
    (17%nat : LocalStore H) "10.0.0.1:12300".

(** A worker whose environment and packages all succeed. *)
Definition world (window winning : bool) : Run.World H :=
  {| Run.cctx_Bool := fun name => String.eqb name "manage-fdlimit";
     Run.os_Setenv := fun _ _ => None;
     Run.ManageFdLimit := None;
     Run.DaemonContext := tt : Ctx H;
     Run.getDeps := fun _ => inl (deps window winning);
     Run.provider_WindowPostScheduler :=
       fun _ fc _ _ _ _ _ _ _ _ _ max =>
         inl (max : WdPostTask H,
              SubmitTask.NewTask (MaxWindowPoStGasFee fc) : WdPostSubmitTask H,
              5%nat : WdPostRecoverTask H);
     Run.NewWinPostTask := fun max _ _ _ _ _ => max : WinPostTask H;
     Run.harmonytask_New := fun _ _ _ => inl (9%nat : TaskEngine H) |}.



(** The same worker when the window-post scheduler cannot be built. *)
Definition world_without_scheduler (window winning : bool) : Run.World H :=
  {| Run.cctx_Bool := fun name => String.eqb name "manage-fdlimit";
     Run.os_Setenv := fun _ _ => None;
     Run.ManageFdLimit := None;
     Run.DaemonContext := tt : Ctx H;
     Run.getDeps := fun _ => inl (deps window winning);
     Run.provider_WindowPostScheduler :=
       fun _ _ _ _ _ _ _ _ _ _ _ _ => inr "adding handler failed";
     Run.NewWinPostTask := fun max _ _ _ _ _ => max : WinPostTask H;
     Run.harmonytask_New := fun _ _ _ => inl (9%nat : TaskEngine H) |}.

(** The end-to-end scenario of the design document: the only funded
    address requires a fee of 150. *)
Definition only_funded : list SubmitTask.Candidate :=
  [SubmitTask.mkCandidate "f0300" 0 150;
   SubmitTask.mkCandidate "f0301" 1000 150].

(** The list a worker with only window post enabled registers. *)
Definition window_only : list (Run.TaskInterface H) :=
  [Run.TWdPost (4 : WdPostTask H);
   Run.TWdPostSubmit (SubmitTask.NewTask 100 : WdPostSubmitTask H);
   Run.TWdPostRecover (5%nat : WdPostRecoverTask H)].

(** Heads are named by their epoch and the lineage they belong to. *)
Definition notify (lineage : string) (height : Z) (anc : option Z)
    : ChainSched.Notification (string * Z) :=
  ChainSched.mkNotification height (fun e => (lineage, e)) anc.

End Sample.

(** ** Go's package strings, as run.go uses it *)

Module GoStrings.

(** [strings.Split(s, sep)] for a separator of one byte (run.go splits on
    a comma and on a colon): the substrings between the separators, in
    order; a string without separator comes back alone. *)
Fixpoint Split (s : string) (sep : Ascii.ascii) : list string :=
  match s with
  | EmptyString => [EmptyString]
  | String c rest =>
      if Ascii.eqb c sep then EmptyString :: Split rest sep
      else match Split rest sep with
           | h :: t => String c h :: t
           | [] => [String c EmptyString]
           end
  end.

(** The two separators of run.go, [","] and [":"]. *)
Definition comma : Ascii.ascii := Ascii.ascii_of_nat 44.
Definition colon : Ascii.ascii := Ascii.ascii_of_nat 58.

(** [strings.Join(elems, sep)]. *)
Definition Join (elems : list string) (sep : string) : string :=
  String.concat sep elems.

(** [strings.Count(s, sep)] for a separator of one byte. *)
Fixpoint Count (s : string) (sep : Ascii.ascii) : nat :=
  match s with
  | EmptyString => 0%nat
  | String c rest =>
      ((if Ascii.eqb c sep then 1 else 0) + Count rest sep)%nat
  end.

End GoStrings.

(** ** run.go: makeDB and StorageAuth *)

Module RunBoot.
Import Go GoStrings.

(** [config.HarmonyDB] *)
Record HarmonyDB : Type := mkHarmonyDB {
  Username : string;
  Password : string;
  Hosts : list string;
  Database : string;
  Port : string
}.

(** The literal [dbConfig] of makeDB; [cctx_String] is [cctx.String]. *)
Definition dbConfig (cctx_String : string -> string) : HarmonyDB :=
  {| Username := cctx_String "db-user";
     Password := cctx_String "db-password";
     Hosts := Split (cctx_String "db-host") comma;
     Database := cctx_String "db-name";
     Port := cctx_String "db-port" |}.

(** [makeDB]; [NewFromConfig] is [harmonydb.NewFromConfig]. *)
Definition makeDB {DBh : Type} (NewFromConfig : HarmonyDB -> DBh + string)
    (cctx_String : string -> string) : DBh + string :=
  NewFromConfig (dbConfig cctx_String).

(** [type jwtPayload struct { Allow []auth.Permission }] *)
Record jwtPayload : Type := mkPayload { Allow : list string }.

(** [http.Header], a map from header names to their values, and
    [Header.Add], which appends a value under the name (the name
    [Authorization] is already in canonical form). *)
Definition Header : Type := gmap string (list string).

Definition Header_Add (h : Header) (key value : string) : Header :=
  <[key := (default [] (h !! key) ++ [value])%list]> h.

(** What StorageAuth calls outside run.go: [base64.StdEncoding.DecodeString]
    and [jwt.Sign] with an HS256 key made of the decoded bytes. *)
Record Crypto : Type := mkCrypto {
  base64_DecodeString : string -> string + string;
  jwt_Sign_HS256 : jwtPayload -> string -> string + string
}.

(** [StorageAuth] *)
Definition StorageAuth (C : Crypto) (apiKey : string) : Header + string :=
  if String.eqb apiKey "" then inr "no api key provided"
  else
    match base64_DecodeString C apiKey with
    | inr err => inr (Wrapf "decoding api key" err)
    | inl rawKey =>
        let p := {| Allow := ["admin"] |} in
        match jwt_Sign_HS256 C p rawKey with
        | inr err => inr err
        | inl token =>
            let headers : Header := ∅ in
            inl (Header_Add headers "Authorization" ("Bearer " ++ token))
        end
    end.

End RunBoot.

(** ** A trace of calls that stops at the first error or panic *)

Module Fallible.

Inductive outcome (A : Type) : Type :=
| Ok (a : A)
| Err (e : string)
| Panic (msg : string).
Arguments Ok {A} a.
Arguments Err {A} e.
Arguments Panic {A} msg.

Definition X (E A : Type) : Type := (list E * outcome A)%type.

Definition xret {E A} (a : A) : X E A := ([], Ok a).

Definition xbind {E A B} (m : X E A) (k : A -> X E B) : X E B :=
  match m with
  | (t, Ok a) => let '(t', r) := k a in ((t ++ t')%list, r)
  | (t, Err e) => (t, Err e)
  | (t, Panic p) => (t, Panic p)
  end.

(** A call that cannot fail, and one that returns [(T, error)]. *)
Definition did {E A} (e : E) (a : A) : X E A := ([e], Ok a).

Definition try {E A} (e : E) (r : A + string) : X E A :=
  ([e], match r with inl a => Ok a | inr err => Err err end).

Definition calls {E A} (m : X E A) : list E := fst m.
Definition outcome_of {E A} (m : X E A) : outcome A := snd m.

End Fallible.

Declare Scope fallible_scope.
Delimit Scope fallible_scope with fallible.
Notation "x <- c ;; k" := (Fallible.xbind c (fun x => k))
  (at level 100, c at next level, right associativity) : fallible_scope.
Notation "c ;;; k" := (Fallible.xbind c (fun _ => k))
  (at level 100, right associativity) : fallible_scope.

(** ** run.go: getDeps *)

(** The types getDeps handles besides those of the tasks. *)
Record BootHandles : Type := mkBootHandles {
  Repo : Type;            (* *repo.FsRepo *)
  AddressConfig : Type;   (* config.LotusProviderAddresses *)
  DisabledEvents : Type;  (* journal.DisabledEvents *)
  Journal : Type;         (* journal.Journal *)
  Closer : Type;          (* jsonrpc.ClientCloser *)
  Alerting : Type;        (* *alerting.Alerting *)
  WorkerStates : Type;    (* *statestore.StateStore *)
  IP : Type               (* net.IP *)
}.

Module Boot.
Import Go Fallible GoStrings RunBoot Run.

Section GetDeps.
Context {H : Handles} {B : BootHandles}.

(** [config.LotusProviderConfig] as getDeps reads it: the part the task
    selection uses, and the addresses, journal and API sections. *)
Record ConfigFile : Type := mkConfigFile {
  tasks_config : LotusProviderConfig H;
  Addresses : AddressConfig B;
  MinerAddresses : list string;    (* cfg.Addresses.MinerAddresses *)
  Journal_DisabledEvents : string; (* cfg.Journal.DisabledEvents *)
  ChainApiInfo : list string;      (* cfg.Apis.ChainApiInfo *)
  StorageRPCSecret : string        (* cfg.Apis.StorageRPCSecret *)
}.

(** What getDeps calls outside run.go. *)
Record Env : Type := mkEnv {
  cctx_String : string -> string;
  FlagRepoPath : string;
  repo_NewFS : string -> Repo B + string;
  Exists : Repo B -> bool + string;
  Init : Repo B -> error;
  NewFromConfig : HarmonyDB -> DB H + string;
  getConfig : DB H -> ConfigFile + string;
  ProofVerifier : Verifier H;
  provider_AddressSelector : AddressConfig B -> AddressSelector H + string;
  ParseDisabledEvents : string -> DisabledEvents B + string;
  OpenFSJournalPath : string -> DisabledEvents B -> Journal B + string;
  GetFullNodeAPIV1LotusProvider :
    list string -> (FullNode H * Closer B) + string;
  crypto : Crypto;
  NewAlertingSystem : Journal B -> Alerting B;
  NewDBIndex : Alerting B -> DB H -> SectorIndex H;
  ParseIP : string -> option (IP B);
  IP_String : IP B -> string;
  GetRoutableIP : DB H -> string + string;
  NewLocal :
    Ctx H -> string -> SectorIndex H -> list string -> LocalStore H + string;
  NewRemote :
    LocalStore H -> SectorIndex H -> Header -> Z -> PathsStore H;
  statestore_New : WorkerStates B;
  NewLocalWorker :
    PathsStore H -> LocalStore H -> SectorIndex H -> WorkerStates B ->
    LocalWorker H;
  address_NewFromString : string -> MinerAddress H + string
}.

Inductive Event : Type :=
| E_Println (repoPath : string)
| E_NewFS (repoPath : string)
| E_Exists
| E_Init
| E_makeDB (c : HarmonyDB)
| E_getConfig
| E_Debugw
| E_AddressSelector
| E_ParseDisabledEvents (s : string)
| E_OpenFSJournalPath (path : string)
| E_GetFullNodeAPI (info : list string)
| E_go_closer (closer : Closer B) (j : Journal B)
| E_StorageAuth (apiKey : string)
| E_NewAlertingSystem
| E_NewDBIndex
| E_GetRoutableIP
| E_NewLocal (path : string) (urls : list string)
| E_NewRemote (limit : Z)
| E_statestore_New
| E_NewLocalWorker
| E_NewFromString (s : string).

Variable V : Env.

(** Open the repo, and initialise it when it does not exist yet. *)
Definition openRepo : X Event (Repo B) :=
  (let repoPath := cctx_String V (FlagRepoPath V) in
   did (E_Println repoPath) tt ;;;
   r <- try (E_NewFS repoPath) (repo_NewFS V repoPath) ;;
   ok <- try E_Exists (Exists V r) ;;
   (if negb ok then
      match Init V r with
      | Some err => ([E_Init], Err err)
      | None => did E_Init tt
      end
    else xret tt) ;;;
   xret r)%fallible.

(** [addressSlice[1]]: an index past the end of a slice panics. *)
Definition index1 (addressSlice : list string) : outcome string :=
  match addressSlice with
  | _ :: p :: _ => Ok p
  | [_] => Panic "runtime error: index out of range [1] with length 1"
  | [] => Panic "runtime error: index out of range [1] with length 0"
  end.

(** The listen address: an unspecified host is replaced by the routable
    address the database reports. *)
Definition resolveListenAddr (db : DB H) : X Event string :=
  (let listenAddr := cctx_String V "listen" in
   let unspecifiedAddress := "0.0.0.0" in
   let addressSlice := Split listenAddr colon in
   match ParseIP V (hd "" addressSlice) with
   | Some ip =>
       if String.eqb (IP_String V ip) unspecifiedAddress then
         rip <- try E_GetRoutableIP (GetRoutableIP V db) ;;
         match index1 addressSlice with
         | Ok port => xret (rip ++ ":" ++ port)
         | Err e => ([], Err e)
         | Panic p => ([], Panic p)
         end
       else xret listenAddr
   | None => xret listenAddr
   end)%fallible.

(** The loop over [cfg.Addresses.MinerAddresses]. *)
Fixpoint parseMinerAddresses (l : list string)
    (maddrs : list (MinerAddress H)) : X Event (list (MinerAddress H)) :=
  match l with
  | [] => xret maddrs
  | s :: l' =>
      (addr <- try (E_NewFromString s) (address_NewFromString V s) ;;
       parseMinerAddresses l' (maddrs ++ [addr])%list)%fallible
  end.

Definition newline : string := String (Ascii.ascii_of_nat 10) "".
Definition tab : string := String (Ascii.ascii_of_nat 9) "".

(** The error getDeps returns when StorageAuth fails. *)
Definition secretError (err secret : string) : string :=
  "'" ++ err ++ "' while parsing the config toml's " ++ newline
  ++ tab ++ "[Apis]" ++ newline
  ++ tab ++ "StorageRPCSecret=" ++ secret ++ newline
  ++ "Get it with: jq .PrivateKey ~/.lotus-miner/keystore/MF2XI2BNNJ3XILLQOJUXMYLUMU".

(** [getDeps] *)
Definition getDeps (ctx : Ctx H) : X Event (Deps H) :=
  (r <- openRepo ;;
   db <- try (E_makeDB (dbConfig (cctx_String V)))
           (makeDB (NewFromConfig V) (cctx_String V)) ;;
   cfg <- try E_getConfig (getConfig V db) ;;
   did E_Debugw tt ;;;
   let verif := ProofVerifier V in
   as_ <- try E_AddressSelector
            (provider_AddressSelector V (Addresses cfg)) ;;
   de <- try (E_ParseDisabledEvents (Journal_DisabledEvents cfg))
           (ParseDisabledEvents V (Journal_DisabledEvents cfg)) ;;
   j <- try (E_OpenFSJournalPath (cctx_String V "journal"))
          (OpenFSJournalPath V (cctx_String V "journal") de) ;;
   fc <- try (E_GetFullNodeAPI (ChainApiInfo cfg))
           (GetFullNodeAPIV1LotusProvider V (ChainApiInfo cfg)) ;;
   let '(full, fullCloser) := fc in
   did (E_go_closer fullCloser j) tt ;;;
   sa <- try (E_StorageAuth (StorageRPCSecret cfg))
           (match StorageAuth (crypto V) (StorageRPCSecret cfg) with
            | inl sa => inl sa
            | inr err => inr (secretError err (StorageRPCSecret cfg))
            end) ;;
   al <- did E_NewAlertingSystem (NewAlertingSystem V j) ;;
   si <- did E_NewDBIndex (NewDBIndex V al db) ;;
   let PathToJSON := cctx_String V "storage-json" in
   listenAddr <- resolveListenAddr db ;;
   localStore <- try
       (E_NewLocal PathToJSON ["http://" ++ listenAddr ++ "/remote"])
       (NewLocal V ctx PathToJSON si
          ["http://" ++ listenAddr ++ "/remote"]) ;;
   stor <- did (E_NewRemote 10) (NewRemote V localStore si sa 10) ;;
   wstates <- did E_statestore_New (statestore_New V) ;;
   lw <- did E_NewLocalWorker
           (NewLocalWorker V stor localStore si wstates) ;;
   maddrs <- parseMinerAddresses (MinerAddresses cfg) [] ;;
   xret (mkDeps (tasks_config cfg) db full verif lw as_ maddrs stor si
           localStore listenAddr))%fallible.

(** Observations on the calls. *)
Definition is_Init (e : Event) : bool :=
  match e with E_Init => true | _ => false end.

Definition is_go_closer (e : Event) : bool :=
  match e with E_go_closer _ _ => true | _ => false end.

Definition count (p : Event -> bool) (t : list Event) : nat :=
  length (filter (fun e => p e = true) t).

(** The closer and the journal given to each goroutine started. *)
Definition closers (t : list Event) : list (Closer B * Journal B) :=
  omap (fun e => match e with E_go_closer c j => Some (c, j) | _ => None end)
       t.

Definition parsed_addresses (t : list Event) : list string :=
  omap (fun e => match e with E_NewFromString s => Some s | _ => None end) t.

Definition announced_urls (t : list Event) : list (list string) :=
  omap (fun e => match e with E_NewLocal _ urls => Some urls | _ => None end)
       t.

(** The [getDeps] of a worker's world is the function above. *)
Definition runs_getDeps (Wd : World H) : Prop :=
  forall ctx d, Run.getDeps Wd ctx = inl d -> outcome_of (getDeps ctx) = Ok d.

End GetDeps.

Arguments ConfigFile : clear implicits.
Arguments Env : clear implicits.
Arguments Event : clear implicits.

End Boot.

(** ** Concrete inputs for getDeps *)

Module SampleBoot.
Import Go Fallible RunBoot.

Definition B : BootHandles :=
  {| Repo := string; AddressConfig := nat; DisabledEvents := string;
     Journal := string; Closer := nat; Alerting := nat;
     WorkerStates := nat; IP := list Z |}.

(** A parser that knows two addresses. *)
Definition parseIP (h : string) : option (list Z) :=
  if String.eqb h "0.0.0.0" then Some [0; 0; 0; 0]
  else if String.eqb h "10.0.0.1" then Some [10; 0; 0; 1]
  else None.

Definition ipString (ip : list Z) : string :=
  match ip with
  | [0; 0; 0; 0] => "0.0.0.0"
  | [10; 0; 0; 1] => "10.0.0.1"
  | _ => "?"
  end.

(** Miner addresses are accepted when they start with [f0]. *)
Definition newFromString (s : string) : string + string :=
  if String.prefix "f0" s then inl s else inr "unknown address network".

Definition flags (listen : string) (flag : string) : string :=
  if String.eqb flag "listen" then listen
  else if String.eqb flag "db-host" then "yb1,yb2"
  else if String.eqb flag "journal" then "~/.lotus-provider/"
  else if String.eqb flag "storage-json" then "~/.lotus-provider/storage.json"
  else if String.eqb flag "repo-path" then "~/.lotusprovider"
  else "yugabyte".

Definition configFile (addrs : list string) (secret : string)
    : Boot.ConfigFile Sample.H B :=
  Boot.mkConfigFile (Sample.config true false) (0%nat : AddressConfig B)
    addrs "" ["ws://127.0.0.1:1234/rpc/v1"] secret.

(** The decoder accepts keys that start with [k]; signing never fails. *)
Definition sampleCrypto : Crypto :=
  {| base64_DecodeString :=
       fun k => if String.prefix "k" k then inl k
                else inr "illegal base64 data at input byte 0";
     jwt_Sign_HS256 := fun _ raw => inl ("token." ++ raw) |}.

(** An environment in which every call succeeds; [exists_] is what
    [r.Exists()] reports. *)
Definition env (listen : string) (addrs : list string) (secret : string)
    (exists_ : bool) : Boot.Env Sample.H B :=
  {| Boot.cctx_String := flags listen;
     Boot.FlagRepoPath := "repo-path";
     Boot.repo_NewFS := fun path => inl (path : Repo B);
     Boot.Exists := fun _ => inl exists_;
     Boot.Init := fun _ => None;
     Boot.NewFromConfig := fun _ => inl (10%nat : DB Sample.H);
     Boot.getConfig := fun _ => inl (configFile addrs secret);
     Boot.ProofVerifier := 12%nat : Verifier Sample.H;
     Boot.provider_AddressSelector :=
       fun _ => inl (14%nat : AddressSelector Sample.H);
     Boot.ParseDisabledEvents := fun s => inl (s : DisabledEvents B);
     Boot.OpenFSJournalPath := fun path _ => inl (path : Journal B);
     Boot.GetFullNodeAPIV1LotusProvider :=
       fun _ => inl (11%nat : FullNode Sample.H, 1%nat : Closer B);
     Boot.crypto := sampleCrypto;
     Boot.NewAlertingSystem := fun _ => 2%nat : Alerting B;
     Boot.NewDBIndex := fun _ _ => 16%nat : SectorIndex Sample.H;
     Boot.ParseIP := parseIP : string -> option (IP B);
     Boot.IP_String := ipString : IP B -> string;
     Boot.GetRoutableIP := fun _ => inl "192.168.1.7";
     Boot.NewLocal := fun _ _ _ _ => inl (17%nat : LocalStore Sample.H);
     Boot.NewRemote := fun _ _ _ _ => 15%nat : PathsStore Sample.H;
     Boot.statestore_New := 3%nat : WorkerStates B;
     Boot.NewLocalWorker := fun _ _ _ _ => 13%nat : LocalWorker Sample.H;
     Boot.address_NewFromString :=
       newFromString : string -> MinerAddress Sample.H + string |}.

End SampleBoot.

(** * Properties *)

(** ** The v10 adapter of the verified registry *)

Module VerifregFacts.
Import Go Verifreg Observe.

Section Facts.
Context {Allocation Claim : Type}.
Implicit Types (s : state10 Allocation Claim) (addr : Address).

Lemma unsupported_is_unsupported :
  is_unsupported (Errorf unsupported) = true.
Proof. reflexivity. Qed.

(** The errors of the store and of [forEachCap]'s wrapper differ from
    the adapter's own message already in their first letter. *)
Lemma wrapped_not_unsupported (e : string) :
  is_unsupported (Errorf (Wrapf "loading verified clients" e)) = false.
Proof. reflexivity. Qed.



Section WithCallback.
Context {W : Type}.
Implicit Types (cb : Callback W) (w : W).



(** The instrumented callback counts one per entry it is shown. *)
Lemma forEachEntry_counted cb l n w :
  (fst (fst (forEachEntry (counted cb) l (n, w))) <= n + length l)%nat.
Proof.
  revert n w. induction l as [|[a d] l IH]; intros n w; simpl.
  - lia.
  - unfold counted at 1; simpl.
    destruct (cb a d w) as [w' [e|]]; simpl; [lia|].
    specialize (IH (S n) w'). lia.
Qed.

End WithCallback.

(** C1: on a v10 state the two accessors without an equivalent in the
    v10 schema fail with the explicit error [unsupported in actors v10].
    VerifiedClientDataCap returns found=false and zero power together
    with that error, for every address.  ForEachClient returns that
    error and never invokes its callback: the caller's state comes back
    untouched, a callback instrumented with an invocation counter still
    reads zero, and the outcome does not depend on the callback. *)
Theorem C1_unsupported_accessors_fail_explicitly {W : Type} s addr
    (cb : Callback W) (w : W) :
  VerifiedClientDataCap s addr = (false, 0, Some unsupported)
  /\ is_unsupported (err3 (VerifiedClientDataCap s addr)) = true
  /\ ForEachClient s cb w = (w, Some unsupported)
  /\ is_unsupported (snd (ForEachClient s cb w)) = true
  /\ fst (ForEachClient s (counted cb) (0%nat, w)) = (0%nat, w)
  /\ (forall cb' : Callback W,
        ForEachClient s cb' w = ForEachClient s cb w).
Proof. repeat split. Qed.


(** C10: RootKey never fails.  For every v10 state, and so for every
    state that load10 returns, it yields the root-key address of the
    embedded state with a nil error, whereas VerifiedClientDataCap of
    the same interface returns the unsupported error. *)
Theorem C10_RootKey_never_fails s :
  RootKey s = (RootKey_ (State_ s), None)
  /\ snd (RootKey s) = None
  /\ (forall (sto : Store Allocation Claim) root st,
        Store_Get sto root = inl st ->
        exists s', load10 sto root = inl s'
                   /\ RootKey s' = (RootKey_ st, None))
  /\ (forall addr,
        is_unsupported (err3 (VerifiedClientDataCap s addr)) = true).
Proof.
  repeat split.
  intros sto root st Hget. unfold load10. rewrite Hget.
  eexists; split; reflexivity.
Qed.

End Facts.

(** On the sample registry ForEachVerifier shows both verifiers to the
    callback; ForEachClient shows it nothing. *)
Example sample_verifiers_visited :
  ForEachVerifier Sample.s10 (counted Sample.sum_cb) (0%nat, 0)
  = ((2%nat, 350), None).
Proof. vm_compute. reflexivity. Qed.

Example sample_clients_unsupported :
  ForEachClient Sample.s10 (counted Sample.sum_cb) (0%nat, 0)
  = ((0%nat, 0), Some unsupported).
Proof. reflexivity. Qed.



End VerifregFacts.

(** ** The window-post builder *)

Module ProviderFacts.
Import Go Trace Provider.


Lemma five_seconds : dmul 5 Second = 5 * 1000000000.
Proof. reflexivity. Qed.

Lemma three_hundred_seconds : dmul 300 Second = 300 * 1000000000.
Proof. reflexivity. Qed.

(** Split an equation between a trace with a distinguished event and an
    explicit list of events. *)
Ltac split_trace pre :=
  repeat (destruct pre as [|? pre]; simplify_eq/=).

Section Facts.
Context {H : Handles} (P : Packages H).
Variables (ctx : Ctx H) (fc : LotusProviderFees) (pc : ProvingConfig H)
  (api : FullNode H) (verif : Verifier H) (lw : LocalWorker H)
  (as_ : AddressSelector H) (maddr : list (MinerAddress H)) (db : DB H)
  (stor : PathsStore H) (idx : SectorIndex H) (max : Z).

Local Notation "'sched'" :=
  (WindowPostScheduler P ctx fc pc api verif lw as_ maddr db stor idx max).
Local Notation "'computed'" :=
  (compute_result P api verif lw maddr db stor idx max).
Local Notation "'submitted'" := (submit_result P fc api as_ db).
Local Notation "'pre4'" := (prefix P api verif lw maddr db stor idx max).
Local Notation "'call5'" := (submit_call P fc api as_ db).
Local Notation "'sch'" := (the_chainSched P api).

(** The three ways through the function. *)
Lemma sched_cases :
  (exists err, computed = inr err
     /\ sched = (pre4, (None, None, Some err)))
  \/ (exists c err, computed = inl c /\ submitted = inr err
     /\ sched = ((pre4 ++ [call5])%list, (None, None, Some err)))
  \/ (exists c s, computed = inl c /\ submitted = inl s
     /\ sched = ((pre4 ++ [call5; Go_Run sch ctx])%list,
                 (Some c, Some s, None))).
Proof.
  unfold WindowPostScheduler, compute_result, submit_result,
    the_ft, the_chainSched, the_sender, prefix, submit_call.
  cbn [bind call ret].
  destruct (NewWdPostTask P _ _ _ _ _ _ _ _) as [c|err] eqn:Hc.
  - cbn [bind call ret].
    destruct (NewWdPostSubmitTask P _ _ _ _ _ _) as [s|err] eqn:Hs.
    + right; right. exists c, s. repeat split; reflexivity.
    + right; left. exists c, err. repeat split; reflexivity.
  - left. exists err. split; reflexivity.
Qed.


(** The compute task is built once, with the caller's bound. *)
Lemma sched_compute_max : compute_max (trace sched) = [max].
Proof.
  destruct sched_cases as [(e & _ & ->)|[(c & e & _ & _ & ->)|(c & s & _ & _ & ->)]];
    reflexivity.
Qed.

(** The submit task is built at most once, with the configured ceiling. *)
Lemma sched_submit_maxFee :
  submit_maxFee (trace sched)
  = match computed with
    | inl _ => [MaxWindowPoStGasFee fc]
    | inr _ => []
    end.
Proof.
  destruct sched_cases as [(e & Hc & ->)|[(c & e & Hc & _ & ->)|(c & s & Hc & _ & ->)]];
    rewrite Hc; reflexivity.
Qed.

Lemma sched_Go_Run_count :
  count is_Go_Run (trace sched)
  = match computed, submitted with
    | inl _, inl _ => 1%nat
    | _, _ => 0%nat
    end.
Proof.
  destruct sched_cases as [(e & Hc & ->)|[(c & e & Hc & Hs & ->)|(c & s & Hc & Hs & ->)]];
    rewrite Hc, ?Hs; reflexivity.
Qed.


(** C9: when the constructor of the Proof Compute Task fails with [err],
    WindowPostScheduler returns (nil, nil, err), the constructor of the
    Proof Submit Task is never called and the scheduler loop is not
    started.  In every case [go chainSched.Run(ctx)] happens at most once:
    once when both constructors succeeded and not at all otherwise; when it
    happens it is the last step, on the scheduler both tasks were built on,
    after one call of each constructor, and the call returns both tasks. *)
Theorem C9_run_started_once_after_both_tasks :
  (forall err, computed = inr err ->
     result sched = (None, None, Some err)
     /\ count is_submit_ctor (trace sched) = 0%nat
     /\ count is_Go_Run (trace sched) = 0%nat)
  /\ count is_Go_Run (trace sched)
     = match computed, submitted with
       | inl _, inl _ => 1%nat
       | _, _ => 0%nat
       end
  /\ (forall pre post pcs c,
        trace sched = (pre ++ Go_Run pcs c :: post)%list ->
        post = [] /\ pcs = sch /\ c = ctx
        /\ count is_compute_ctor pre = 1%nat
        /\ count is_submit_ctor pre = 1%nat
        /\ exists ct st, computed = inl ct /\ submitted = inl st
             /\ result sched = (Some ct, Some st, None)).
Proof.
  split; [|split; [apply sched_Go_Run_count|]].
  - intros err Herr.
    destruct sched_cases as [(e & Hc & ->)|[(c & e & Hc & _ & _)|(c & s & Hc & _ & _)]];
      rewrite Hc in Herr; simplify_eq. repeat split.
  - intros pre post pcs c Ht.
    destruct sched_cases as [(e & Hc & Hr)|[(ct & e & Hc & Hs & Hr)|(ct & st & Hc & Hs & Hr)]];
      rewrite Hr in Ht |- *; unfold trace, prefix, submit_call in Ht;
      simpl in Ht.
    + split_trace pre.
    + split_trace pre.
    + split_trace pre. repeat split. exists ct, st. by rewrite Hc, Hs.
Qed.

End Facts.

End ProviderFacts.

(** ** The fault tracker the builder constructs *)

Module FaultTrackerFacts.
Import Go Trace Provider FaultTracker.









Section Facts.
Context {H : Handles} (P : Packages H).
Variables (ctx : Ctx H) (fc : LotusProviderFees) (pc : ProvingConfig H)
  (api : FullNode H) (verif : Verifier H) (lw : LocalWorker H)
  (as_ : AddressSelector H) (maddr : list (MinerAddress H)) (db : DB H)
  (stor : PathsStore H) (idx : SectorIndex H) (max : Z).

Local Notation "'sched'" :=
  (WindowPostScheduler P ctx fc pc api verif lw as_ maddr db stor idx max).

(** The tracker of the builder's constants. *)
Local Notation "'built'" := (New 32 (5 * Second) (300 * Second)).


End Facts.

(** A sector whose storage never answers: the check ends at 5 s and the
    sector is cached as unhealthy; 300 s later the entry is still used,
    one nanosecond after that the sector is checked again. *)
Example unreachable_sector_cached :
  probe_one (New 32 (5 * Second) (300 * Second)) (fun _ => None) 1000 7%N
  = mkProbe (mkTracker 32 (5 * Second) (300 * Second)
               (<[7%N := mkEntry 1000 false]> ∅))
            false 1 (5 * Second)
  /\ checks
       (probe_one
          (tracker
             (probe_one (New 32 (5 * Second) (300 * Second))
                (fun _ => None) 1000 7%N))
          (fun _ => Some (1, true)) (1000 + 300 * Second) 7%N) = 0%nat
  /\ probe_one
       (tracker
          (probe_one (New 32 (5 * Second) (300 * Second))
             (fun _ => None) 1000 7%N))
       (fun _ => Some (1, true)) (1001 + 300 * Second) 7%N
     = mkProbe (mkTracker 32 (5 * Second) (300 * Second)
                  (<[7%N := mkEntry (1001 + 300 * Second) true]>
                     (<[7%N := mkEntry 1000 false]> ∅)))
               true 1 1.
Proof. repeat split. Qed.

End FaultTrackerFacts.

(** ** The worker's task selection *)

Module RunFacts.
Import Go Trace Run.

Section Facts.
Context {H : Handles} (Wd : World H).
Implicit Types (d : Deps H) (ctx : Ctx H).

(** What the task selection returns. *)
Lemma selectTasks_result ctx d :
  result (selectTasks Wd ctx d)
  = if EnableWindowPost (Subsystems (cfg d)) then
      match scheduler_result Wd ctx d with
      | inr err => inr err
      | inl _ => inl (window_tasks Wd ctx d ++ winning_tasks Wd d)%list
      end
    else inl (winning_tasks Wd d).
Proof.
  unfold selectTasks, window_tasks, winning_tasks, scheduler_result.
  destruct (EnableWindowPost _); cbn [bind call ret result snd].
  - destruct (provider_WindowPostScheduler Wd _ _ _ _ _ _ _ _ _ _ _ _)
      as [[[a b] c]|err]; cbn [bind call ret result snd]; [|reflexivity].
    destruct (EnableWinningPost _); reflexivity.
  - destruct (EnableWinningPost _); reflexivity.
Qed.

(** The task selection never reaches the engine itself, and calls the
    scheduler only when window post is enabled, with the configured bound. *)
Lemma selectTasks_trace ctx d :
  registered (trace (selectTasks Wd ctx d)) = []
  /\ scheduler_max (trace (selectTasks Wd ctx d))
     = if EnableWindowPost (Subsystems (cfg d)) then
         [WindowPostMaxTasks (Subsystems (cfg d))]
       else [].
Proof.
  unfold selectTasks.
  destruct (EnableWindowPost _); cbn [bind call ret trace fst].
  - destruct (provider_WindowPostScheduler Wd _ _ _ _ _ _ _ _ _ _ _ _)
      as [[[a b] c]|err]; cbn [bind call ret trace fst];
      [destruct (EnableWinningPost _)|]; split; reflexivity.
  - destruct (EnableWinningPost _); split; reflexivity.
Qed.

Lemma trace_bind {E A B} (m : M E A) (k : A -> M E B) :
  trace (bind m k) = (trace m ++ trace (k (result m)))%list.
Proof.
  unfold bind, trace, result. destruct m as [t a]; simpl.
  destruct (k a); reflexivity.
Qed.

Lemma result_bind {E A B} (m : M E A) (k : A -> M E B) :
  result (bind m k) = result (k (result m)).
Proof.
  unfold bind, result. destruct m as [t a]; simpl.
  destruct (k a); reflexivity.
Qed.

Lemma registered_app (t1 t2 : list (Event H)) :
  registered (t1 ++ t2) = (registered t1 ++ registered t2)%list.
Proof. apply omap_app. Qed.

Lemma scheduler_max_app (t1 t2 : list (Event H)) :
  scheduler_max (t1 ++ t2) = (scheduler_max t1 ++ scheduler_max t2)%list.
Proof. apply omap_app. Qed.

(** The engine is created at most once, with the selected tasks, and only
    when the environment, getDeps and the selection all succeed. *)
Lemma Action_registered :
  registered (trace (Action Wd))
  = match setenv_result Wd with
    | Some _ => []
    | None =>
        match getDeps Wd (DaemonContext Wd) with
        | inr _ => []
        | inl d =>
            match result (selectTasks Wd (DaemonContext Wd) d) with
            | inr _ => []
            | inl tasks => [tasks]
            end
        end
    end.
Proof.
  unfold Action, setenv_result.
  rewrite trace_bind, registered_app.
  destruct (negb _); cbn [call ret result snd trace fst];
    [destruct (os_Setenv Wd _ _); [reflexivity|]|];
    rewrite !trace_bind, !registered_app;
    (destruct (cctx_Bool Wd "manage-fdlimit");
       [destruct (ManageFdLimit Wd)|]);
    cbn [call ret result snd trace fst];
    (destruct (getDeps Wd _) as [d|err]; [|reflexivity]);
    rewrite !trace_bind, !registered_app;
    rewrite (proj1 (selectTasks_trace _ _));
    (destruct (result (selectTasks Wd _ d)) as [tasks|err]; [|reflexivity]);
    rewrite !trace_bind, !registered_app;
    cbn [call ret result snd trace fst];
    destruct (harmonytask_New Wd _ _ _); reflexivity.
Qed.

Lemma Action_scheduler_max :
  scheduler_max (trace (Action Wd))
  = match setenv_result Wd with
    | Some _ => []
    | None =>
        match getDeps Wd (DaemonContext Wd) with
        | inr _ => []
        | inl d =>
            if EnableWindowPost (Subsystems (cfg d)) then
              [WindowPostMaxTasks (Subsystems (cfg d))]
            else []
        end
    end.
Proof.
  unfold Action, setenv_result.
  rewrite trace_bind, scheduler_max_app.
  destruct (negb _); cbn [call ret result snd trace fst];
    [destruct (os_Setenv Wd _ _); [reflexivity|]|];
    rewrite !trace_bind, !scheduler_max_app;
    (destruct (cctx_Bool Wd "manage-fdlimit");
       [destruct (ManageFdLimit Wd)|]);
    cbn [call ret result snd trace fst];
    (destruct (getDeps Wd _) as [d|err]; [|reflexivity]);
    rewrite !trace_bind, !scheduler_max_app;
    rewrite (proj2 (selectTasks_trace _ _));
    (destruct (result (selectTasks Wd _ d)) as [tasks|err];
       [|destruct (EnableWindowPost _); reflexivity]);
    rewrite !trace_bind, !scheduler_max_app;
    cbn [call ret result snd trace fst];
    destruct (harmonytask_New Wd _ _ _), (EnableWindowPost _); reflexivity.
Qed.

Lemma window_tasks_spec ctx d t :
  In t (window_tasks Wd ctx d) ->
  is_window_post t = true /\ is_winning_post t = false
  /\ EnableWindowPost (Subsystems (cfg d)) = true.
Proof.
  unfold window_tasks.
  destruct (EnableWindowPost _); [|intros []].
  destruct (scheduler_result Wd ctx d) as [[[a b] c]|err]; [|intros []].
  simpl. intros [<-|[<-|[<-|[]]]]; repeat split.
Qed.

Lemma winning_tasks_spec d t :
  In t (winning_tasks Wd d) ->
  is_winning_post t = true /\ is_window_post t = false
  /\ EnableWinningPost (Subsystems (cfg d)) = true.
Proof.
  unfold winning_tasks.
  destruct (EnableWinningPost _); [|intros []].
  simpl. intros [<-|[]]; repeat split.
Qed.

(** When the selection succeeds, its list is the window-post tasks followed
    by the winning-post task. *)
Lemma selectTasks_inl ctx d tasks :
  result (selectTasks Wd ctx d) = inl tasks ->
  tasks = (window_tasks Wd ctx d ++ winning_tasks Wd d)%list
  /\ (EnableWindowPost (Subsystems (cfg d)) = true ->
      exists a b c, scheduler_result Wd ctx d = inl (a, b, c)
        /\ window_tasks Wd ctx d
           = [TWdPost a; TWdPostSubmit b; TWdPostRecover c]).
Proof.
  rewrite selectTasks_result. unfold window_tasks.
  destruct (EnableWindowPost _).
  - destruct (scheduler_result Wd ctx d) as [[[a b] c]|err]; [|discriminate].
    intros [= <-]. split; [reflexivity|]. intros _. by exists a, b, c.
  - intros [= <-]. split; [reflexivity|discriminate].
Qed.

(** C8: the list of tasks the worker hands to the Task Engine is made of
    the tasks of the subsystems its configuration enables, and of nothing
    else.  Whenever [harmonytask.New] is called, it is called once, getDeps
    had returned the configuration, and the list holds window-post tasks
    exactly when EnableWindowPost is set and a winning-post task exactly
    when EnableWinningPost is set: it is the scheduler's tasks (if enabled)
    followed by the winning-post task (if enabled). *)
Theorem C8_registers_exactly_configured_tasks
    (tasks : list (TaskInterface H)) :
  In tasks (registered (trace (Action Wd))) ->
  exists d,
    getDeps Wd (DaemonContext Wd) = inl d
    /\ registered (trace (Action Wd)) = [tasks]
    /\ tasks = (window_tasks Wd (DaemonContext Wd) d
                ++ winning_tasks Wd d)%list
    /\ ((exists t, In t tasks /\ is_window_post t = true)
        <-> EnableWindowPost (Subsystems (cfg d)) = true)
    /\ ((exists t, In t tasks /\ is_winning_post t = true)
        <-> EnableWinningPost (Subsystems (cfg d)) = true).
Proof.
  rewrite Action_registered.
  destruct (setenv_result Wd); [intros []|].
  destruct (getDeps Wd _) as [d|err]; [|intros []].
  destruct (result (selectTasks Wd _ d)) as [tasks'|err] eqn:Hsel;
    [|intros []].
  intros [->|[]]. exists d.
  destruct (selectTasks_inl _ _ _ Hsel) as [Htasks Hwin].
  split; [reflexivity|]. split; [reflexivity|]. split; [exact Htasks|].
  subst tasks. split; split.
  - intros (t & Hin & Ht). apply in_app_or in Hin as [Hin|Hin].
    + by apply window_tasks_spec in Hin as (_ & _ & ?).
    + apply winning_tasks_spec in Hin as (_ & Hf & _). congruence.
  - intros Hen. destruct (Hwin Hen) as (a & b & c & _ & ->).
    exists (TWdPost a). split; [left; reflexivity|reflexivity].
  - intros (t & Hin & Ht). apply in_app_or in Hin as [Hin|Hin].
    + apply window_tasks_spec in Hin as (_ & Hf & _). congruence.
    + by apply winning_tasks_spec in Hin as (_ & _ & ?).
  - intros Hen. unfold winning_tasks. rewrite Hen.
    eexists. split; [apply in_or_app; right; left; reflexivity|reflexivity].
Qed.

End Facts.

End RunFacts.

Module RunExamples.

(** A worker with window post alone enabled reaches the engine with the
    three tasks of the scheduler call. *)
Lemma C8_witness :
  In Sample.window_only
     (Run.registered (Trace.trace (Run.Action (Sample.world true false))))
  /\ exists d,
       Run.getDeps (Sample.world true false)
         (Run.DaemonContext (Sample.world true false)) = inl d
       /\ Run.EnableWindowPost (Run.Subsystems (Run.cfg d)) = true.
Proof.
  assert (Hin : In Sample.window_only
            (Run.registered
               (Trace.trace (Run.Action (Sample.world true false)))))
    by (vm_compute; left; reflexivity).
  split; [exact Hin|].
  destruct (RunFacts.C8_registers_exactly_configured_tasks
              (Sample.world true false) Sample.window_only Hin)
    as (d & Hd & _ & _ & Hw & _).
  exists d. split; [exact Hd|].
  apply Hw. exists (Run.TWdPost (4 : WdPostTask Sample.H)).
  split; [left; reflexivity|reflexivity].
Defined.

End RunExamples.

(** ** Builder and worker together *)

Module PipelineFacts.
Import Go Trace.
Import Provider Run.

Section Facts.
Context {H : Handles} (P : Packages H) (Wd : World H).
Variables (ctx : Ctx H) (fc : LotusProviderFees) (pc : ProvingConfig H)
  (api : FullNode H) (verif : Verifier H) (lw : LocalWorker H)
  (as_ : AddressSelector H) (maddr : list (MinerAddress H)) (db : DB H)
  (stor : PathsStore H) (idx : SectorIndex H) (max : Z).

Local Notation "'sched'" :=
  (WindowPostScheduler P ctx fc pc api verif lw as_ maddr db stor idx max).
Local Notation "'computed'" :=
  (compute_result P api verif lw maddr db stor idx max).
Local Notation "'submitted'" := (submit_result P fc api as_ db).



(** C7: the bound on concurrent proof computations is passed on unchanged.
    WindowPostScheduler hands its [max] argument to the constructor of the
    compute task, once and as it is; the worker calls the scheduler only
    with WindowPostMaxTasks of the configuration getDeps returned; so on
    the worker's arguments the compute task receives exactly the configured
    WindowPostMaxTasks. *)
Theorem C7_compute_bound_is_configured_value :
  compute_max (trace sched) = [max]
  /\ (forall m, In m (scheduler_max (trace (Action Wd))) ->
      exists d, getDeps Wd (DaemonContext Wd) = inl d
        /\ EnableWindowPost (Subsystems (cfg d)) = true
        /\ m = WindowPostMaxTasks (Subsystems (cfg d)))
  /\ (forall (c : Ctx H) (d : Deps H),
        scheduler_max (trace (selectTasks Wd c d))
        = (if EnableWindowPost (Subsystems (cfg d))
           then [WindowPostMaxTasks (Subsystems (cfg d))] else [])
        /\ compute_max
             (trace
                (WindowPostScheduler P c (Fees (cfg d)) (Proving (cfg d))
                   (full d) (Run.verif d) (Run.lw d) (Run.as_ d) (maddrs d)
                   (Run.db d) (Run.stor d) (si d)
                   (WindowPostMaxTasks (Subsystems (cfg d)))))
           = [WindowPostMaxTasks (Subsystems (cfg d))]).
Proof.
  split; [apply ProviderFacts.sched_compute_max|]. split.
  - intros m Hin. rewrite RunFacts.Action_scheduler_max in Hin.
    destruct (setenv_result Wd); [destruct Hin|].
    destruct (getDeps Wd _) as [d|err]; [|destruct Hin].
    destruct (EnableWindowPost (Subsystems (cfg d))) eqn:Hen; [|destruct Hin].
    destruct Hin as [<-|[]]. by exists d.
  - intros c d. split.
    + apply RunFacts.selectTasks_trace.
    + apply ProviderFacts.sched_compute_max.
Qed.

End Facts.




End PipelineFacts.

(** ** The proof submit task and its fee ceiling *)

Module SubmitFacts.
Import Go Trace Provider SubmitTask.

Lemma select_none ceiling cs :
  (forall c, In c cs -> affordable ceiling c = false) ->
  select ceiling cs = None.
Proof.
  unfold select. induction cs as [|c cs IH]; intros Hall; simpl.
  - reflexivity.
  - rewrite (Hall c) by (left; reflexivity).
    apply IH. intros c' Hin. apply Hall. by right.
Qed.

Lemma select_some ceiling cs c :
  select ceiling cs = Some c -> In c cs /\ affordable ceiling c = true.
Proof. unfold select. apply find_some. Qed.

(** A submission never carries a ceiling other than the task's, and never
    leaves from a sender that cannot afford it. *)
Lemma Do_outbox t cs payload p ob :
  outbox (Do t cs payload p ob) = ob
  \/ exists c, In c cs /\ affordable (maxFee t) c = true
       /\ outbox (Do t cs payload p ob)
          = submit ob (c_addr c) payload (maxFee t).
Proof.
  unfold Do. destruct (select (maxFee t) cs) as [c|] eqn:Hsel.
  - right. exists c. destruct (select_some _ _ _ Hsel) as [Hin Haff].
    repeat split; try assumption. destruct p; reflexivity.
  - left. reflexivity.
Qed.

Section Facts.
Context {H : Handles} (P : Packages H).
Variables (ctx : Ctx H) (fc : LotusProviderFees) (pc : ProvingConfig H)
  (api : FullNode H) (verif : Verifier H) (lw : LocalWorker H)
  (as_ : AddressSelector H) (maddr : list (MinerAddress H)) (db : DB H)
  (stor : PathsStore H) (idx : SectorIndex H) (max : Z).

Local Notation "'sched'" :=
  (WindowPostScheduler P ctx fc pc api verif lw as_ maddr db stor idx max).

(** C4: the fee ceiling is a hard cap.  The only ceiling WindowPostScheduler
    ever hands to the constructor of the Proof Submit Task is the configured
    MaxWindowPoStGasFee.  A task built with that ceiling, run on a set of
    sender addresses none of which can afford the transaction within it,
    fails at once: its status is failed, the alert is raised, it is not
    retried, and the outbox is left as it was, so no transaction is
    submitted. *)
Theorem C4_fee_ceiling_is_hard_cap (cs : list Candidate) (payload : string)
    (p : Poll) (ob : list Message) :
  (forall c, In c cs -> affordable (MaxWindowPoStGasFee fc) c = false) ->
  (forall fee, In fee (submit_maxFee (trace sched)) ->
     fee = MaxWindowPoStGasFee fc
     /\ Do (NewTask fee) cs payload p ob
        = mkOutcome Failed [Unaffordable] ob false)
  /\ maxFee (NewTask (MaxWindowPoStGasFee fc)) = MaxWindowPoStGasFee fc
  /\ status (Do (NewTask (MaxWindowPoStGasFee fc)) cs payload p ob) = Failed
  /\ alerts (Do (NewTask (MaxWindowPoStGasFee fc)) cs payload p ob)
     = [Unaffordable]
  /\ retry (Do (NewTask (MaxWindowPoStGasFee fc)) cs payload p ob) = false
  /\ outbox (Do (NewTask (MaxWindowPoStGasFee fc)) cs payload p ob) = ob.
Proof.
  intros Hnone.
  assert (HDo : Do (NewTask (MaxWindowPoStGasFee fc)) cs payload p ob
                = mkOutcome Failed [Unaffordable] ob false).
  { unfold Do, NewTask; simpl. by rewrite (select_none _ _ Hnone). }
  split.
  - intros fee Hin.
    rewrite (ProviderFacts.sched_submit_maxFee P ctx fc pc api verif lw as_
               maddr db stor idx max) in Hin.
    destruct (compute_result P api verif lw maddr db stor idx max);
      [|destruct Hin].
    destruct Hin as [<-|[]]. split; [reflexivity|exact HDo].
  - rewrite HDo. repeat split.
Qed.

End Facts.

(** The end-to-end scenario of the design document: a ceiling of 100, the
    only funded address requires 150. *)
Lemma C4_witness :
  (forall c, In c Sample.only_funded ->
     affordable (MaxWindowPoStGasFee Sample.fees) c = false)
  /\ Do (NewTask 100) Sample.only_funded "proof" Confirmed []
     = mkOutcome Failed [Unaffordable] [] false.
Proof.
  assert (Hnone : forall c, In c Sample.only_funded ->
             affordable (MaxWindowPoStGasFee Sample.fees) c = false).
  { intros c [<-|[<-|[]]]; reflexivity. }
  split; [exact Hnone|].
  destruct (C4_fee_ceiling_is_hard_cap (Sample.packages true true)
              (tt : Ctx Sample.H) Sample.fees (0%nat : ProvingConfig Sample.H)
              (11%nat : FullNode Sample.H) (12%nat : Verifier Sample.H)
              (13%nat : LocalWorker Sample.H)
              (14%nat : AddressSelector Sample.H)
              (["f01234"%string] : list (MinerAddress Sample.H))
              (10%nat : DB Sample.H) (15%nat : PathsStore Sample.H)
              (16%nat : SectorIndex Sample.H) 4
              Sample.only_funded "proof" Confirmed [] Hnone) as [Hfee _].
  apply (Hfee 100). vm_compute. left; reflexivity.
Defined.

(** The same scenario with a ceiling of 200: the transaction is handed to
    the outbox and, once confirmed, the task is done. *)
Example scenario_ceiling_200 :
  Do (NewTask 200) Sample.only_funded "proof" Confirmed []
  = mkOutcome Done [] [mkMessage "f0301" 0 "proof" 200] false.
Proof. reflexivity. Qed.

End SubmitFacts.

(** ** The chain scheduler *)

Module ChainSchedFacts.
Import ChainSched.

Section Facts.
Context {Head : Type}.
Implicit Types (n : Notification Head) (ns : list (Notification Head))
  (l : list (Invocation Head)) (i : Invocation Head) (cbs : list nat).

Lemma elem_of_due c t e : e ∈ due c t <-> c < e <= t.
Proof. unfold due. rewrite elem_of_seqZ. lia. Qed.

Lemma due_sorted c t : StronglySorted Z.lt (due c t).
Proof.
  unfold due. generalize (c + 1). intros m.
  destruct (Z_le_gt_dec (t - c) 0) as [Hle|Hgt].
  - rewrite seqZ_nil by lia. constructor.
  - revert m. generalize (t - c) Hgt. intros k Hk.
    rewrite <- (Z2Nat.id k) by lia.
    induction (Z.to_nat k) as [|j IH]; intros m.
    + rewrite seqZ_nil by lia. constructor.
    + rewrite seqZ_cons by lia.
      replace (Z.pred (Z.of_nat (S j))) with (Z.of_nat j) by lia.
      constructor; [apply IH|].
      apply Forall_seqZ. intros; lia.
Qed.

Lemma fired_app cb e l1 l2 :
  fired cb e (l1 ++ l2) = (fired cb e l1 + fired cb e l2)%nat.
Proof. unfold fired. by rewrite filter_app, length_app. Qed.

(** One epoch: each callback as often as it is registered. *)
Lemma fired_fire cb e cbs n e' :
  fired cb e (fire cbs n e')
  = if decide (e' = e) then registrations cb cbs else 0%nat.
Proof.
  unfold fired, fire, registrations.
  induction cbs as [|c cbs IH]; simpl.
  - by destruct (decide (e' = e)).
  - rewrite !filter_cons. cbn [inv_cb inv_epoch].
    destruct (decide (e' = e)) as [->|Hne].
    + destruct (decide (c = cb)) as [->|Hc].
      * rewrite decide_True by done. cbn [length]. f_equal. exact IH.
      * rewrite decide_False by (intros [? _]; done). exact IH.
    + rewrite decide_False by (intros [_ ?]; done). exact IH.
Qed.

(** A duplicate-free list of epochs: once for the epochs in it. *)
Lemma fire_all_cons cbs n e (es : list Z) :
  fire_all cbs n (e :: es) = (fire cbs n e ++ fire_all cbs n es)%list.
Proof. reflexivity. Qed.

Lemma fired_epochs cb e cbs n (es : list Z) :
  NoDup es ->
  fired cb e (fire_all cbs n es)
  = if decide (e ∈ es) then registrations cb cbs else 0%nat.
Proof.
  induction 1 as [|e' es Hnotin Hnd IH].
  - destruct (decide (e ∈ [])) as [Hin|_]; [inversion Hin|reflexivity].
  - rewrite fire_all_cons, fired_app, fired_fire, IH.
    destruct (decide (e' = e)) as [->|Hne];
      destruct (decide (e ∈ es)) as [Hin|Hout];
      destruct (decide (e ∈ _ :: es)) as [Hin'|Hout'];
      rewrite ?elem_of_cons in *; try lia; exfalso; intuition congruence.
Qed.

Lemma elem_of_fire_all i cbs n (es : list Z) :
  i ∈ fire_all cbs n es <->
  exists e cb, e ∈ es /\ cb ∈ cbs /\ i = mkInvocation cb (head_at n e) e.
Proof.
  unfold fire_all, fire. rewrite list_elem_of_join. split.
  - intros (l & Hi & Hl). apply list_elem_of_fmap in Hl as (e & -> & He).
    apply list_elem_of_fmap in Hi as (cb & -> & Hcb). by exists e, cb.
  - intros (e & cb & He & Hcb & ->).
    exists ((fun cb => mkInvocation cb (head_at n e) e) <$> cbs). split.
    + by apply (list_elem_of_fmap_2
                  (fun cb => mkInvocation cb (head_at n e) e)).
    + by apply (list_elem_of_fmap_2
                  (fun e => (fun cb => mkInvocation cb (head_at n e) e)
                              <$> cbs)).
Qed.

Lemma fire_sorted cbs n e :
  StronglySorted Z.le (inv_epoch <$> fire cbs n e).
Proof.
  unfold fire. induction cbs as [|c cbs IH]; simpl; constructor.
  - exact IH.
  - apply Forall_forall. intros x Hx.
    apply list_elem_of_fmap in Hx as (i & -> & Hi).
    apply list_elem_of_fmap in Hi as (cb & -> & _). simpl. lia.
Qed.

Lemma fire_all_sorted cbs n (es : list Z) :
  StronglySorted Z.lt es ->
  StronglySorted Z.le (inv_epoch <$> fire_all cbs n es).
Proof.
  induction 1 as [|e es Hs IH Hall].
  - constructor.
  - rewrite fire_all_cons, fmap_app. apply StronglySorted_app_2.
    + intros x1 x2 H1 H2.
      apply list_elem_of_fmap in H1 as (i1 & -> & H1).
      apply list_elem_of_fmap in H2 as (i2 & -> & H2).
      apply list_elem_of_fmap in H1 as (cb & -> & _).
      apply elem_of_fire_all in H2 as (e2 & cb2 & He2 & _ & ->). simpl.
      rewrite Forall_forall in Hall. specialize (Hall e2 He2). lia.
    + apply fire_sorted.
    + exact IH.
Qed.

Lemma run_cons lag cbs c n ns :
  run lag cbs c (n :: ns)
  = (fst (run lag cbs (fst (step lag cbs c n)) ns),
     (snd (step lag cbs c n)
        ++ snd (run lag cbs (fst (step lag cbs c n)) ns))%list).
Proof.
  cbn [run]. destruct (step lag cbs c n) as [c1 l1]. cbn [fst snd].
  destruct (run lag cbs c1 ns); reflexivity.
Qed.

Lemma step_cursor lag cbs c n :
  unfire c n <= fst (step lag cbs c n)
  /\ finalized lag n <= fst (step lag cbs c n).
Proof. unfold step; simpl. lia. Qed.

Lemma step_fired lag cbs c n cb e :
  fired cb e (snd (step lag cbs c n))
  = if decide (unfire c n < e <= fst (step lag cbs c n))
    then registrations cb cbs else 0%nat.
Proof.
  unfold step; simpl. rewrite fired_epochs by apply NoDup_seqZ.
  destruct (decide (e ∈ _)) as [Hin|Hout];
    rewrite elem_of_due in *;
    destruct (decide (_ < e <= _)); try reflexivity; exfalso; lia.
Qed.

Lemma step_elem lag cbs c n i :
  i ∈ snd (step lag cbs c n) ->
  unfire c n < inv_epoch i <= finalized lag n
  /\ inv_head i = head_at n (inv_epoch i)
  /\ inv_cb i ∈ cbs.
Proof.
  unfold step; simpl. rewrite elem_of_fire_all.
  intros (e & cb & He & Hcb & ->). simpl.
  apply elem_of_due in He. auto.
Qed.

Lemma step_sorted lag cbs c n :
  StronglySorted Z.le (inv_epoch <$> snd (step lag cbs c n)).
Proof. unfold step; simpl. apply fire_all_sorted, due_sorted. Qed.

(** Without a reorg the cursor of a step starts where it was left. *)
Lemma unfire_no_reorg c n : ancestor n = None -> unfire c n = c.
Proof. unfold unfire. by intros ->. Qed.

Lemma run_cursor_mono lag cbs c ns :
  no_reorg ns -> c <= fst (run lag cbs c ns).
Proof.
  intros Hnr. revert c. induction Hnr as [|n ns Hn _ IH]; intros c.
  - simpl. lia.
  - rewrite run_cons; cbn [fst snd].
    pose proof (step_cursor lag cbs c n) as [Hc _].
    rewrite unfire_no_reorg in Hc by done.
    specialize (IH (fst (step lag cbs c n))). lia.
Qed.

Lemma run_fired lag cbs c ns cb e :
  no_reorg ns ->
  fired cb e (snd (run lag cbs c ns))
  = if decide (c < e <= fst (run lag cbs c ns))
    then registrations cb cbs else 0%nat.
Proof.
  intros Hnr. revert c. induction Hnr as [|n ns Hn Hnr IH]; intros c.
  - simpl. destruct (decide _); [lia|reflexivity].
  - rewrite run_cons; cbn [fst snd]. rewrite fired_app, step_fired, IH.
    rewrite unfire_no_reorg by done.
    pose proof (step_cursor lag cbs c n) as [Hc _].
    rewrite unfire_no_reorg in Hc by done.
    pose proof (run_cursor_mono lag cbs (fst (step lag cbs c n)) ns Hnr).
    repeat destruct (decide (_ < e <= _)); lia.
Qed.

Lemma run_elem lag cbs c ns i :
  no_reorg ns ->
  i ∈ snd (run lag cbs c ns) ->
  c < inv_epoch i <= fst (run lag cbs c ns)
  /\ inv_cb i ∈ cbs
  /\ exists m, m ∈ ns /\ inv_head i = head_at m (inv_epoch i)
       /\ inv_epoch i <= finalized lag m.
Proof.
  intros Hnr. revert c. induction Hnr as [|n ns Hn Hnr IH]; intros c.
  - simpl. intros Hin. inversion Hin.
  - rewrite run_cons; cbn [fst snd]. intros [Hin|Hin]%elem_of_app.
    + apply step_elem in Hin as (He & Hh & Hcb).
      rewrite unfire_no_reorg in He by done.
      pose proof (step_cursor lag cbs c n) as [_ Hf].
      pose proof (run_cursor_mono lag cbs (fst (step lag cbs c n)) ns Hnr).
      split; [lia|]. split; [exact Hcb|].
      exists n. split; [apply list_elem_of_here|]. split; [exact Hh|lia].
    + apply IH in Hin as (He & Hcb & m & Hm & Hh & Hf).
      pose proof (step_cursor lag cbs c n) as [Hc _].
      rewrite unfire_no_reorg in Hc by done.
      split; [lia|]. split; [exact Hcb|].
      exists m. split; [by apply list_elem_of_further|]. by split.
Qed.

Lemma run_sorted lag cbs c ns :
  no_reorg ns ->
  StronglySorted Z.le (inv_epoch <$> snd (run lag cbs c ns)).
Proof.
  intros Hnr. revert c. induction Hnr as [|n ns Hn Hnr IH]; intros c.
  - constructor.
  - rewrite run_cons; cbn [fst snd]. rewrite fmap_app.
    apply StronglySorted_app_2; [|apply step_sorted|apply IH].
    intros x1 x2 H1 H2.
    apply list_elem_of_fmap in H1 as (i1 & -> & H1).
    apply list_elem_of_fmap in H2 as (i2 & -> & H2).
    apply step_elem in H1 as (He1 & _).
    apply (run_elem _ _ _ _ _ Hnr) in H2 as (He2 & _).
    pose proof (step_cursor lag cbs c n) as [_ Hf]. lia.
Qed.

Lemma registrations_NoDup cb cbs :
  NoDup cbs -> cb ∈ cbs -> registrations cb cbs = 1%nat.
Proof.
  unfold registrations. induction 1 as [|c cbs Hnotin Hnd IH].
  - intros Hin. inversion Hin.
  - rewrite filter_cons. destruct (decide (c = cb)) as [->|Hne].
    + intros _. simpl. f_equal.
      destruct (filter _ cbs) as [|x l] eqn:Hf; [reflexivity|].
      exfalso. apply Hnotin.
      assert (Hx : x ∈ filter (fun c => c = cb) cbs)
        by (rewrite Hf; apply list_elem_of_here).
      apply list_elem_of_filter in Hx as [-> Hx]. exact Hx.
    + intros Hin. apply IH. inversion Hin; subst; [done|assumption].
Qed.

Lemma run_app lag cbs c ns1 ns2 :
  run lag cbs c (ns1 ++ ns2)
  = (fst (run lag cbs (fst (run lag cbs c ns1)) ns2),
     (snd (run lag cbs c ns1)
        ++ snd (run lag cbs (fst (run lag cbs c ns1)) ns2))%list).
Proof.
  revert c. induction ns1 as [|n ns1 IH]; intros c.
  - cbn [app run fst snd]. by destruct (run lag cbs c ns2).
  - rewrite <- app_comm_cons, !run_cons. cbn [fst snd].
    rewrite IH. cbn [fst snd]. by rewrite <- app_assoc.
Qed.

(** One notification: the epochs above the cursor it leaves, up to the
    newest finalized one. *)
Lemma step_fired_finalized lag cbs c n cb e :
  fired cb e (snd (step lag cbs c n))
  = if decide (unfire c n < e <= finalized lag n)
    then registrations cb cbs else 0%nat.
Proof.
  unfold step; cbn [snd]. rewrite fired_epochs by apply NoDup_seqZ.
  destruct (decide (e ∈ _)) as [Hin|Hout];
    rewrite elem_of_due in *;
    destruct (decide (_ < e <= _)); try reflexivity; exfalso; lia.
Qed.

Lemma step_complete lag cbs c n cb e :
  cb ∈ cbs -> unfire c n < e <= finalized lag n ->
  mkInvocation cb (head_at n e) e ∈ snd (step lag cbs c n).
Proof.
  intros Hcb He. unfold step; cbn [snd]. apply elem_of_fire_all.
  exists e, cb. split; [by apply elem_of_due|]. by split.
Qed.

Lemma run_cursor_ge lag cbs c ns m :
  no_reorg ns -> m ∈ ns -> finalized lag m <= fst (run lag cbs c ns).
Proof.
  intros Hnr. revert c. induction Hnr as [|n ns Hn Hnr IH]; intros c Hm.
  - inversion Hm.
  - rewrite run_cons; cbn [fst snd].
    apply elem_of_cons in Hm as [->|Hm].
    + pose proof (step_cursor lag cbs c n) as [_ Hf].
      pose proof (run_cursor_mono lag cbs (fst (step lag cbs c n)) ns Hnr).
      lia.
    + by apply IH.
Qed.

Lemma run_cursor_reach lag cbs c ns :
  no_reorg ns ->
  fst (run lag cbs c ns) = c
  \/ exists m, m ∈ ns /\ fst (run lag cbs c ns) = finalized lag m.
Proof.
  intros Hnr. revert c. induction Hnr as [|n ns Hn Hnr IH]; intros c.
  - by left.
  - rewrite run_cons; cbn [fst snd].
    destruct (IH (fst (step lag cbs c n))) as [Heq|(m & Hm & Heq)].
    + rewrite Heq. unfold step; cbn [fst].
      rewrite unfire_no_reorg by done.
      destruct (Z.max_spec c (finalized lag n)) as [[_ ->]|[_ ->]].
      * right. exists n. split; [apply list_elem_of_here|reflexivity].
      * by left.
    + right. exists m. split; [by apply list_elem_of_further|exact Heq].
Qed.

Section Stream.
Variables (lag : Z) (cbs : list nat) (cursor : Z).
Variables (ns1 : list (Notification Head)) (n : Notification Head)
  (ns2 : list (Notification Head)).

(** The cursor when [n] arrives, and what is invoked from [n] on. *)
Local Notation "'c'" := (fst (run lag cbs cursor ns1)).
Local Notation "'now'" := (snd (step lag cbs c n)).
Local Notation "'onward'" := (snd (run lag cbs c (n :: ns2))).

(** C5: take any stream of notifications and any notification [n] in it,
    with or without a reorg, and let [c] be the cursor when [n] arrives.
    On [n] the scheduler invokes the callbacks for exactly the epochs above
    the cursor [n] leaves (the common ancestor after a reorg, if lower) up
    to the newest finalized epoch, the head height minus the lag: every
    registered callback once per such epoch, in ascending epoch order, on
    the head as of that epoch; and it moves the cursor to that epoch.
    After a reorg with common ancestor [A] an epoch at or below the old
    cursor fires again only if it lies strictly above [A]; without a reorg
    nothing at or below the cursor fires.  From [n] until the next reorg
    every registered callback is invoked exactly once for every epoch some
    notification finalizes, and for no other, in ascending order. *)
Theorem C5_callbacks_fire_once_in_order :
  snd (run lag cbs cursor (ns1 ++ n :: ns2))
  = (snd (run lag cbs cursor ns1) ++ now
       ++ snd (run lag cbs (fst (step lag cbs c n)) ns2))%list
  /\ fst (step lag cbs c n) = Z.max (unfire c n) (finalized lag n)
  /\ (forall cb e,
        fired cb e now
        = if decide (unfire c n < e <= finalized lag n)
          then registrations cb cbs else 0%nat)
  /\ (NoDup cbs -> forall cb e, cb ∈ cbs ->
      unfire c n < e <= finalized lag n -> fired cb e now = 1%nat)
  /\ StronglySorted Z.le (inv_epoch <$> now)
  /\ (forall i, i ∈ now ->
      inv_cb i ∈ cbs /\ inv_head i = head_at n (inv_epoch i)
      /\ unfire c n < inv_epoch i <= finalized lag n)
  /\ (forall cb e, cb ∈ cbs -> unfire c n < e <= finalized lag n ->
      mkInvocation cb (head_at n e) e ∈ now)
  /\ (forall A, ancestor n = Some A ->
      unfire c n = Z.min c A
      /\ forall i, i ∈ now ->
         Z.min c A < inv_epoch i /\ (inv_epoch i <= c -> A < inv_epoch i))
  /\ (ancestor n = None -> forall i, i ∈ now -> c < inv_epoch i)
  /\ (no_reorg ns2 ->
      (forall cb e,
         fired cb e onward
         = if decide (unfire c n < e <= fst (run lag cbs c (n :: ns2)))
           then registrations cb cbs else 0%nat)
      /\ (forall m, m ∈ n :: ns2 ->
            finalized lag m <= fst (run lag cbs c (n :: ns2)))
      /\ (forall cb e, unfire c n < e ->
            (exists m, m ∈ n :: ns2 /\ e <= finalized lag m) ->
            fired cb e onward = registrations cb cbs)
      /\ (forall cb e,
            e <= unfire c n \/ (forall m, m ∈ n :: ns2 -> finalized lag m < e) ->
            fired cb e onward = 0%nat)
      /\ (NoDup cbs -> forall cb e, cb ∈ cbs -> unfire c n < e ->
            (exists m, m ∈ n :: ns2 /\ e <= finalized lag m) ->
            fired cb e onward = 1%nat)
      /\ StronglySorted Z.le (inv_epoch <$> onward)
      /\ (forall i, i ∈ onward ->
            inv_cb i ∈ cbs /\ unfire c n < inv_epoch i
            /\ exists m, m ∈ n :: ns2 /\ inv_head i = head_at m (inv_epoch i)
                 /\ inv_epoch i <= finalized lag m)).
Proof.
  split.
  { rewrite run_app. cbn [snd]. by rewrite run_cons. }
  split; [reflexivity|].
  split; [intros cb e; apply step_fired_finalized|].
  split.
  { intros Hnd cb e Hcb He.
    rewrite step_fired_finalized, decide_True by done.
    by apply registrations_NoDup. }
  split; [apply step_sorted|].
  split.
  { intros i Hin. apply step_elem in Hin as (He & Hh & Hcb). auto. }
  split; [intros cb e; apply step_complete|].
  split.
  { intros A HA. split; [unfold unfire; by rewrite HA|].
    intros i Hin. apply step_elem in Hin as (He & _).
    unfold unfire in He. rewrite HA in He. lia. }
  split.
  { intros Hnone i Hin. apply step_elem in Hin as (He & _).
    rewrite unfire_no_reorg in He by done. lia. }
  intros Hnr.
  pose proof (step_cursor lag cbs c n) as [Hc Hf].
  pose proof (run_cursor_mono lag cbs (fst (step lag cbs c n)) ns2 Hnr)
    as Hmono.
  assert (Hcount : forall cb e,
     fired cb e onward
     = if decide (unfire c n < e <= fst (run lag cbs c (n :: ns2)))
       then registrations cb cbs else 0%nat).
  { intros cb e. rewrite run_cons; cbn [fst snd].
    rewrite fired_app, step_fired, run_fired by done.
    repeat destruct (decide (_ < e <= _)); lia. }
  assert (Hge : forall m, m ∈ n :: ns2 ->
                  finalized lag m <= fst (run lag cbs c (n :: ns2))).
  { intros m Hm. rewrite run_cons; cbn [fst snd].
    apply elem_of_cons in Hm as [->|Hm]; [lia|].
    by apply run_cursor_ge. }
  assert (Hreach : fst (run lag cbs c (n :: ns2)) = unfire c n
                   \/ exists m, m ∈ n :: ns2
                        /\ fst (run lag cbs c (n :: ns2)) = finalized lag m).
  { rewrite run_cons; cbn [fst snd].
    destruct (run_cursor_reach lag cbs (fst (step lag cbs c n)) ns2 Hnr)
      as [Heq|(m & Hm & Heq)].
    - rewrite Heq. unfold step; cbn [fst].
      destruct (Z.max_spec (unfire c n) (finalized lag n))
        as [[_ ->]|[_ ->]].
      + right. exists n. split; [apply list_elem_of_here|reflexivity].
      + by left.
    - right. exists m. split; [by apply list_elem_of_further|exact Heq]. }
  assert (Hyes : forall cb e, unfire c n < e ->
            (exists m, m ∈ n :: ns2 /\ e <= finalized lag m) ->
            fired cb e onward = registrations cb cbs).
  { intros cb e Hlow (m & Hm & Hle). rewrite Hcount.
    specialize (Hge m Hm). rewrite decide_True by lia. reflexivity. }
  split; [exact Hcount|]. split; [exact Hge|]. split; [exact Hyes|].
  split.
  { intros cb e Hout. rewrite Hcount.
    destruct (decide (_ < e <= _)) as [[Hlow Hup]|]; [|reflexivity].
    exfalso. destruct Hout as [Hle|Hall]; [lia|].
    destruct Hreach as [Heq|(m & Hm & Heq)]; [lia|].
    specialize (Hall m Hm). lia. }
  split.
  { intros Hnd cb e Hcb Hlow Hex. rewrite Hyes by done.
    by apply registrations_NoDup. }
  split.
  { rewrite run_cons; cbn [fst snd]. rewrite fmap_app.
    apply StronglySorted_app_2; [|apply step_sorted|by apply run_sorted].
    intros x1 x2 H1 H2.
    apply list_elem_of_fmap in H1 as (i1 & -> & H1).
    apply list_elem_of_fmap in H2 as (i2 & -> & H2).
    apply step_elem in H1 as (He1 & _).
    apply (run_elem _ _ _ _ _ Hnr) in H2 as (He2 & _). lia. }
  intros i. rewrite run_cons; cbn [fst snd].
  intros [Hin|Hin]%elem_of_app.
  - apply step_elem in Hin as (He & Hh & Hcb).
    split; [exact Hcb|]. split; [lia|]. exists n.
    split; [apply list_elem_of_here|]. split; [exact Hh|lia].
  - apply (run_elem _ _ _ _ _ Hnr) in Hin as (He & Hcb & m & Hm & Hh & Hfm).
    split; [exact Hcb|]. split; [lia|]. exists m.
    split; [by apply list_elem_of_further|]. by split.
Qed.

End Stream.

End Facts.

End ChainSchedFacts.

Module ChainSchedExamples.
Import ChainSched.

(** The scenario of the design document: with the cursor at 9 the epochs
    10, 11 and 12 fire in that order, once each. *)
Example scenario_10_11_12 :
  run 0 [0%nat] 9 [Sample.notify "a" 12 None]
  = (12, [mkInvocation 0 ("a", 10) 10; mkInvocation 0 ("a", 11) 11;
          mkInvocation 0 ("a", 12) 12]).
Proof. reflexivity. Qed.

(** A reorg with common ancestor 10 is then observed: 11 and 12 fire again
    on the new lineage once they are finalized, 10 does not. *)
Example scenario_reorg_at_10 :
  run 0 [0%nat] 12 [Sample.notify "b" 12 (Some 10)]
  = (12, [mkInvocation 0 ("b", 11) 11; mkInvocation 0 ("b", 12) 12]).
Proof. reflexivity. Qed.

(** A revert by itself invokes nothing. *)
Example scenario_revert_alone :
  run 2 [0%nat] 12 [Sample.notify "b" 12 (Some 10)] = (10, []).
Proof. reflexivity. Qed.

(** After the reorg with ancestor 10 at cursor 12, epoch 11 fires once
    more, epoch 13 fires when the next head finalizes it, epoch 10 does not
    fire again. *)
Lemma C5_witness :
  no_reorg [Sample.notify "b" 13 None]
  /\ fired 0 11
       (snd (run 0 [0%nat] 12
               [Sample.notify "b" 12 (Some 10); Sample.notify "b" 13 None]))
     = 1%nat
  /\ fired 0 13
       (snd (run 0 [0%nat] 12
               [Sample.notify "b" 12 (Some 10); Sample.notify "b" 13 None]))
     = 1%nat
  /\ fired 0 10
       (snd (run 0 [0%nat] 12
               [Sample.notify "b" 12 (Some 10); Sample.notify "b" 13 None]))
     = 0%nat.
Proof.
  assert (Hnr : no_reorg [Sample.notify "b" 13 None])
    by (repeat constructor).
  split; [exact Hnr|].
  destruct (ChainSchedFacts.C5_callbacks_fire_once_in_order 0 [0%nat] 12 []
              (Sample.notify "b" 12 (Some 10)) [Sample.notify "b" 13 None])
    as (_ & _ & _ & _ & _ & _ & _ & _ & _ & Hrun).
  destruct (Hrun Hnr) as (_ & _ & Hyes & Hno & _).
  split; [|split].
  - apply (Hyes 0%nat 11); [vm_compute; reflexivity|].
    exists (Sample.notify "b" 12 (Some 10)).
    split; [apply list_elem_of_here|vm_compute; discriminate].
  - apply (Hyes 0%nat 13); [vm_compute; reflexivity|].
    exists (Sample.notify "b" 13 None).
    split; [apply list_elem_of_further, list_elem_of_here|
            vm_compute; discriminate].
  - apply (Hno 0%nat 10). left. vm_compute. discriminate.
Defined.

End ChainSchedExamples.

Module ProviderExamples.
Import Go Trace Provider.

(** The scheduler of the sample on the arguments the sample worker passes. *)
Local Notation "'sample_sched' P" :=
  (WindowPostScheduler P (tt : Ctx Sample.H) Sample.fees
     (0%nat : ProvingConfig Sample.H) (11%nat : FullNode Sample.H)
     (12%nat : Verifier Sample.H) (13%nat : LocalWorker Sample.H)
     (14%nat : AddressSelector Sample.H)
     (["f01234"%string] : list (MinerAddress Sample.H))
     (10%nat : DB Sample.H) (15%nat : PathsStore Sample.H)
     (16%nat : SectorIndex Sample.H) 4)
  (at level 10, P at level 9).

(** Both constructors succeed: six steps, the last one starts the loop. *)
Example both_tasks_built :
  result (sample_sched (Sample.packages true true))
    = (Some 4, Some (SubmitTask.NewTask 100), None)
  /\ length (trace (sample_sched (Sample.packages true true))) = 6%nat
  /\ count is_Go_Run (trace (sample_sched (Sample.packages true true)))
     = 1%nat.
Proof. repeat split. Qed.

(** The compute constructor fails: four steps, no submit task, no loop. *)
Example compute_task_fails :
  result (sample_sched (Sample.packages false true))
    = (None, None, Some "adding handler failed"%string)
  /\ length (trace (sample_sched (Sample.packages false true))) = 4%nat
  /\ count is_submit_ctor (trace (sample_sched (Sample.packages false true)))
     = 0%nat
  /\ count is_Go_Run (trace (sample_sched (Sample.packages false true)))
     = 0%nat.
Proof. repeat split. Qed.

(** The submit constructor fails: five steps, no loop. *)
Example submit_task_fails :
  result (sample_sched (Sample.packages true false))
    = (None, None, Some "adding handler failed"%string)
  /\ length (trace (sample_sched (Sample.packages true false))) = 5%nat
  /\ count is_Go_Run (trace (sample_sched (Sample.packages true false)))
     = 0%nat.
Proof. repeat split. Qed.

(** C9 as worded, with the loop started exactly once on every call, fails
    on a call whose compute constructor fails: the function returns the
    error before the [go] statement and the loop is not started. *)
Lemma C9_counterexample :
  result (sample_sched (Sample.packages false true))
    = (None, None, Some "adding handler failed"%string)
  /\ count is_Go_Run (trace (sample_sched (Sample.packages false true)))
     = 0%nat
  /\ ~ (forall (P : Packages Sample.H) (ctx : Ctx Sample.H)
          (fc : LotusProviderFees) (pc : ProvingConfig Sample.H)
          (api : FullNode Sample.H) (verif : Verifier Sample.H)
          (lw : LocalWorker Sample.H) (as_ : AddressSelector Sample.H)
          (maddr : list (MinerAddress Sample.H)) (db : DB Sample.H)
          (stor : PathsStore Sample.H) (idx : SectorIndex Sample.H)
          (max : Z),
          count is_Go_Run
            (trace (WindowPostScheduler P ctx fc pc api verif lw as_ maddr
                      db stor idx max)) = 1%nat).
Proof.
  split; [reflexivity|]. split; [reflexivity|].
  intros Hall.
  specialize (Hall (Sample.packages false true) (tt : Ctx Sample.H)
                Sample.fees (0%nat : ProvingConfig Sample.H)
                (11%nat : FullNode Sample.H) (12%nat : Verifier Sample.H)
                (13%nat : LocalWorker Sample.H)
                (14%nat : AddressSelector Sample.H)
                (["f01234"%string] : list (MinerAddress Sample.H))
                (10%nat : DB Sample.H) (15%nat : PathsStore Sample.H)
                (16%nat : SectorIndex Sample.H) 4).
  discriminate Hall.
Qed.

End ProviderExamples.

(** ** Splitting and joining *)

Module GoStringsFacts.
Import GoStrings.

Lemma Split_cons s sep : exists h t, Split s sep = h :: t.
Proof.
  induction s as [|c rest IH]; simpl; [by eauto|].
  destruct (Ascii.eqb c sep); [by eauto|].
  destruct IH as (h & t & ->). by eauto.
Qed.

Lemma Split_not_nil s sep : Split s sep <> [].
Proof. destruct (Split_cons s sep) as (h & t & ->). discriminate. Qed.

Lemma Join_cons_cons x y l sep :
  Join (x :: y :: l) sep = (x ++ sep ++ Join (y :: l) sep)%string.
Proof. reflexivity. Qed.

(** Joining the parts gives the string back. *)
Lemma Join_Split s sep : Join (Split s sep) (String sep "") = s.
Proof.
  induction s as [|c rest IH]; [reflexivity|]. cbn [Split].
  destruct (Split_cons rest sep) as (h & t & Hs). rewrite Hs in IH |- *.
  destruct (Ascii.eqb c sep) eqn:Hc.
  - apply Ascii.eqb_eq in Hc as ->. rewrite Join_cons_cons, IH.
    reflexivity.
  - destruct t as [|y t].
    + unfold Join in *. simpl in *. by rewrite IH.
    + rewrite Join_cons_cons in *. rewrite <- IH. reflexivity.
Qed.

(** No part contains the separator. *)
Lemma Split_parts s sep : Forall (fun p => Count p sep = 0%nat) (Split s sep).
Proof.
  induction s as [|c rest IH]; simpl.
  - by repeat constructor.
  - destruct (Ascii.eqb c sep) eqn:Hc.
    + by constructor.
    + destruct (Split rest sep) as [|h t].
      * constructor; [|constructor]. simpl. by rewrite Hc.
      * inversion IH as [|? ? Hh Ht]; subst. constructor; [|exact Ht].
        simpl. by rewrite Hc, Hh.
Qed.

(** One part more than there are separators. *)
Lemma length_Split s sep : length (Split s sep) = S (Count s sep).
Proof.
  induction s as [|c rest IH]; [reflexivity|]. simpl.
  destruct (Split_cons rest sep) as (h & t & Hs). rewrite Hs in IH |- *.
  destruct (Ascii.eqb c sep); simpl in *; lia.
Qed.

Lemma Split_without_sep s sep : Count s sep = 0%nat -> Split s sep = [s].
Proof.
  induction s as [|c rest IH]; [reflexivity|]. simpl.
  destruct (Ascii.eqb c sep); [discriminate|]. simpl.
  intros H. by rewrite IH.
Qed.

(** The first part is the string up to its first separator, whatever
    follows. *)
Lemma Split_app h r sep :
  Count h sep = 0%nat ->
  Split (h ++ String sep r) sep = h :: Split r sep.
Proof.
  induction h as [|c h IH]; simpl.
  - intros _. by rewrite Ascii.eqb_refl.
  - destruct (Ascii.eqb c sep); [discriminate|]. simpl.
    intros H. by rewrite IH.
Qed.

(** Splitting what was joined from separator-free parts gives the parts. *)
Lemma Split_Join l sep :
  l <> [] -> Forall (fun p => Count p sep = 0%nat) l ->
  Split (Join l (String sep "")) sep = l.
Proof.
  intros Hne Hall. induction Hall as [|x l Hx Hall IH]; [done|].
  destruct l as [|y l].
  - simpl. by apply Split_without_sep.
  - rewrite Join_cons_cons.
    change (String sep "" ++ Join (y :: l) (String sep ""))%string
      with (String sep (Join (y :: l) (String sep ""))).
    rewrite Split_app by done. f_equal. by apply IH.
Qed.

End GoStringsFacts.

(** ** makeDB and StorageAuth *)

Module RunBootFacts.
Import Go GoStrings RunBoot.

(** X1: makeDB hands [harmonydb.NewFromConfig] a configuration whose host
    list is the db-host flag cut at its commas: there is always at least
    one host (an empty flag gives one empty host), one more than the flag
    has commas, no host contains a comma, and joining the hosts with commas
    gives the flag back.  The result of makeDB is that of NewFromConfig. *)
Theorem X1_makeDB_hosts (cctx_String : string -> string) :
  Hosts (dbConfig cctx_String) <> []
  /\ length (Hosts (dbConfig cctx_String))
     = S (Count (cctx_String "db-host") comma)
  /\ Forall (fun h => Count h comma = 0%nat) (Hosts (dbConfig cctx_String))
  /\ Join (Hosts (dbConfig cctx_String)) "," = cctx_String "db-host"
  /\ (cctx_String "db-host" = "" -> Hosts (dbConfig cctx_String) = [""])
  /\ (forall (DBh : Type) (NewFromConfig : HarmonyDB -> DBh + string),
        makeDB NewFromConfig cctx_String
        = NewFromConfig (dbConfig cctx_String)).
Proof.
  unfold dbConfig; simpl.
  split; [apply GoStringsFacts.Split_not_nil|].
  split; [apply GoStringsFacts.length_Split|].
  split; [apply GoStringsFacts.Split_parts|].
  split; [apply (GoStringsFacts.Join_Split _ comma)|].
  split; [by intros ->|reflexivity].
Qed.

(** X2: a configuration written as a list of comma-free hosts joined by
    commas reaches NewFromConfig as exactly that list. *)
Theorem X2_makeDB_hosts_roundtrip (cctx_String : string -> string)
    (hosts : list string) :
  hosts <> [] ->
  Forall (fun h => Count h comma = 0%nat) hosts ->
  cctx_String "db-host" = Join hosts "," ->
  Hosts (dbConfig cctx_String) = hosts.
Proof.
  intros Hne Hall Hflag. unfold dbConfig; simpl. rewrite Hflag.
  by apply (GoStringsFacts.Split_Join hosts comma).
Qed.

Lemma X2_witness :
  Hosts (dbConfig (fun flag => if String.eqb flag "db-host"
                               then "yb1,yb2,10.0.0.5" else "yugabyte"))
  = ["yb1"; "yb2"; "10.0.0.5"].
Proof.
  apply (X2_makeDB_hosts_roundtrip
           (fun flag => if String.eqb flag "db-host"
                        then "yb1,yb2,10.0.0.5" else "yugabyte")
           ["yb1"; "yb2"; "10.0.0.5"]).
  - discriminate.
  - repeat constructor.
  - reflexivity.
Defined.

(** X3: StorageAuth either fails or returns headers, for one of exactly
    four reasons.  An empty key is refused with [no api key provided]
    whatever the decoder would say; a key that does not decode gives
    [decoding api key: ] followed by the decoder's error; a signing error
    is returned as it is; otherwise the headers hold the single name
    Authorization with the single value [Bearer ] followed by the token
    signed for the permission admin with the decoded key. *)
Theorem X3_StorageAuth_outcomes (C : Crypto) (apiKey : string) :
  (apiKey = "" /\ StorageAuth C apiKey = inr "no api key provided")
  \/ (apiKey <> "" /\ exists err,
        base64_DecodeString C apiKey = inr err
        /\ StorageAuth C apiKey = inr ("decoding api key: " ++ err))
  \/ (apiKey <> "" /\ exists rawKey err,
        base64_DecodeString C apiKey = inl rawKey
        /\ jwt_Sign_HS256 C (mkPayload ["admin"]) rawKey = inr err
        /\ StorageAuth C apiKey = inr err)
  \/ (apiKey <> "" /\ exists rawKey token,
        base64_DecodeString C apiKey = inl rawKey
        /\ jwt_Sign_HS256 C (mkPayload ["admin"]) rawKey = inl token
        /\ StorageAuth C apiKey
           = inl {["Authorization" := ["Bearer " ++ token]]}).
Proof.
  unfold StorageAuth.
  destruct (String.eqb apiKey "") eqn:He.
  - apply String.eqb_eq in He. by left.
  - apply String.eqb_neq in He. right.
    destruct (base64_DecodeString C apiKey) as [rawKey|err] eqn:Hd.
    + right. cbv zeta.
      destruct (jwt_Sign_HS256 C _ rawKey) as [token|err] eqn:Hs.
      * right. split; [done|]. exists rawKey, token.
        do 2 (split; [done|]). unfold Header_Add, Header.
        rewrite lookup_empty. simpl. by rewrite insert_empty.
      * left. split; [done|]. by exists rawKey, err.
    + left. split; [done|]. by exists err.
Qed.

End RunBootFacts.

(** ** getDeps *)

Module BootFacts.
Import Go Fallible GoStrings RunBoot Run Boot.

Lemma calls_xbind {E A B} (m : X E A) (k : A -> X E B) :
  calls (xbind m k)
  = (calls m ++ match outcome_of m with
                | Ok a => calls (k a)
                | _ => []
                end)%list.
Proof.
  destruct m as [t [a|e|p]]; unfold xbind, calls, outcome_of; simpl.
  - by destruct (k a).
  - by rewrite app_nil_r.
  - by rewrite app_nil_r.
Qed.

Lemma outcome_xbind {E A B} (m : X E A) (k : A -> X E B) :
  outcome_of (xbind m k)
  = match outcome_of m with
    | Ok a => outcome_of (k a)
    | Err e => Err e
    | Panic p => Panic p
    end.
Proof.
  destruct m as [t [a|e|p]]; unfold xbind, outcome_of; simpl;
    [by destruct (k a)|done|done].
Qed.

Lemma string_app_assoc (a b c : string) :
  ((a ++ b) ++ c)%string = (a ++ b ++ c)%string.
Proof.
  induction a as [|x a IH]; [reflexivity|].
  change (String x ((a ++ b) ++ c) = String x (a ++ b ++ c))%string.
  by rewrite IH.
Qed.

Section Facts.
Context {H : Handles} {B : BootHandles} (V : Env H B).
Implicit Types (db : DB H) (ctx : Ctx H).

(** X4: a listen address whose host part (the text before the first colon)
    is not an IP address printing as 0.0.0.0 is used as it is, and the
    database is not asked for a routable address. *)
Theorem X4_listen_address_kept db :
  (forall ip, ParseIP V (hd "" (Split (cctx_String V "listen") colon))
              = Some ip ->
              IP_String V ip <> "0.0.0.0") ->
  resolveListenAddr V db = ([], Ok (cctx_String V "listen")).
Proof.
  intros Hip. unfold resolveListenAddr.
  destruct (ParseIP V _) as [ip|] eqn:Hp; [|reflexivity].
  specialize (Hip ip eq_refl). apply String.eqb_neq in Hip.
  by rewrite Hip.
Qed.

(** X5: a listen address [h:r] whose host [h] is the unspecified address
    becomes the routable address of the database followed by a colon and
    the text of [r] up to its first colon; a port part without colon is
    kept whole, anything after a second colon is dropped. *)
Theorem X5_unspecified_host_replaced db (h r rip : string) (ip : IP B) :
  cctx_String V "listen" = h ++ ":" ++ r ->
  Count h colon = 0%nat ->
  ParseIP V h = Some ip ->
  IP_String V ip = "0.0.0.0" ->
  GetRoutableIP V db = inl rip ->
  resolveListenAddr V db
    = ([E_GetRoutableIP], Ok (rip ++ ":" ++ hd "" (Split r colon)))
  /\ (Count r colon = 0%nat ->
      resolveListenAddr V db = ([E_GetRoutableIP], Ok (rip ++ ":" ++ r))).
Proof.
  intros Hl Hh Hp Hs Hr.
  assert (Hres : resolveListenAddr V db
            = ([E_GetRoutableIP], Ok (rip ++ ":" ++ hd "" (Split r colon)))).
  { unfold resolveListenAddr. rewrite Hl.
    change (h ++ ":" ++ r)%string with (h ++ String colon r)%string.
    rewrite GoStringsFacts.Split_app by done. cbn [hd].
    rewrite Hp, Hs, Hr. cbn [String.eqb].
    destruct (GoStringsFacts.Split_cons r colon) as (p & t & ->).
    reflexivity. }
  split; [exact Hres|].
  intros Hc. rewrite Hres.
  by rewrite GoStringsFacts.Split_without_sep.
Qed.

(** X6: a listen address that is just the unspecified address, without a
    port, makes the function ask the database first and then panic on
    [addressSlice[1]]; when the database fails its error is returned. *)
Theorem X6_unspecified_host_without_port db (ip : IP B) :
  Count (cctx_String V "listen") colon = 0%nat ->
  ParseIP V (cctx_String V "listen") = Some ip ->
  IP_String V ip = "0.0.0.0" ->
  calls (resolveListenAddr V db) = [E_GetRoutableIP]
  /\ outcome_of (resolveListenAddr V db)
     = match GetRoutableIP V db with
       | inl _ =>
           Panic "runtime error: index out of range [1] with length 1"
       | inr err => Err err
       end.
Proof.
  intros Hc Hp Hs. unfold resolveListenAddr.
  rewrite GoStringsFacts.Split_without_sep by done. cbn [hd].
  rewrite Hp, Hs. cbn [String.eqb].
  destruct (GetRoutableIP V db); split; reflexivity.
Qed.

(** The loop with an accumulator. *)
Lemma parseMinerAddresses_acc (l : list string) (acc : list (MinerAddress H)) :
  match outcome_of (parseMinerAddresses V l acc) with
  | Ok maddrs =>
      exists parsed, maddrs = (acc ++ parsed)%list
        /\ Forall2 (fun s a => address_NewFromString V s = inl a) l parsed
        /\ calls (parseMinerAddresses V l acc) = E_NewFromString <$> l
  | Err e =>
      exists good s rest parsed,
        l = (good ++ s :: rest)%list
        /\ Forall2 (fun s a => address_NewFromString V s = inl a) good parsed
        /\ address_NewFromString V s = inr e
        /\ calls (parseMinerAddresses V l acc)
           = E_NewFromString <$> (good ++ [s])%list
  | Panic _ => False
  end.
Proof.
  revert acc. induction l as [|s l IH]; intros acc.
  - simpl. exists []. by rewrite app_nil_r.
  - cbn [parseMinerAddresses].
    rewrite outcome_xbind, calls_xbind. unfold try at 1 3 4.
    cbn [outcome_of calls fst snd].
    destruct (address_NewFromString V s) as [a|e] eqn:Ha.
    + specialize (IH (acc ++ [a])%list).
      destruct (outcome_of (parseMinerAddresses V l (acc ++ [a])))
        as [maddrs|e|p].
      * destruct IH as (parsed & -> & Hall & Hcalls).
        exists (a :: parsed). rewrite <- app_assoc. split; [done|].
        split; [by constructor|]. simpl. by rewrite Hcalls.
      * destruct IH as (good & s' & rest & parsed & -> & Hall & Hs' & Hc).
        exists (s :: good), s', rest, (a :: parsed).
        split; [done|]. split; [by constructor|]. split; [done|].
        simpl. by rewrite Hc.
      * done.
    + exists [], s, l, []. split; [done|]. split; [constructor|].
      split; [done|]. reflexivity.
Qed.

(** X7: the loop over the configured miner addresses parses them in
    order.  It either returns the parsed addresses, one per configured
    string and in the same order, or fails with the error of the first
    string that does not parse, without looking at the strings after it. *)
Theorem X7_miner_addresses_in_order (l : list string) :
  match outcome_of (parseMinerAddresses V l []) with
  | Ok maddrs =>
      Forall2 (fun s a => address_NewFromString V s = inl a) l maddrs
      /\ length maddrs = length l
      /\ calls (parseMinerAddresses V l []) = E_NewFromString <$> l
  | Err e =>
      exists good s rest parsed,
        l = (good ++ s :: rest)%list
        /\ Forall2 (fun s a => address_NewFromString V s = inl a) good parsed
        /\ address_NewFromString V s = inr e
        /\ calls (parseMinerAddresses V l [])
           = E_NewFromString <$> (good ++ [s])%list
  | Panic _ => False
  end.
Proof.
  pose proof (parseMinerAddresses_acc l []) as Hacc.
  destruct (outcome_of (parseMinerAddresses V l [])) as [maddrs|e|p];
    [|exact Hacc|exact Hacc].
  destruct Hacc as (parsed & -> & Hall & Hc). simpl.
  split; [exact Hall|]. split; [|exact Hc].
  symmetry. by eapply Forall2_length.
Qed.

(** Run the function along one path: reduce the steps already decided and
    split on the next call's result. *)
Ltac exec_step Hx :=
  first
    [ progress (cbn [calls outcome_of try did xret fst snd] in Hx)
    | progress (rewrite outcome_xbind in Hx)
    | match type of Hx with
      | context [match ?o with inl _ => _ | inr _ => _ end] =>
          destruct o eqn:?; try discriminate Hx
      | context [match ?o with Some _ => _ | None => _ end] =>
          destruct o eqn:?; try discriminate Hx
      | context [if ?o then _ else _] =>
          destruct o eqn:?; try discriminate Hx
      | context [let '(_, _) := ?o in _] =>
          destruct o eqn:?
      | context [match ?o with Ok _ => _ | Err _ => _ | Panic _ => _ end] =>
          destruct o eqn:?; try discriminate Hx
      end ].

Ltac exec_in Hx := repeat exec_step Hx.

(** X8: when getDeps succeeds, the dependencies it returns fit together.
    The database is the one makeDB opened and the configuration the one
    read from it; the sector index is built on that database; the listen
    address returned is the resolved one, and the local store was created
    announcing exactly [http://<that address>/remote]; the remote store is
    built over the returned local store and index with the headers of
    StorageAuth and a fetch limit of 10; the worker is built over the
    returned remote store, local store and index; and the miner addresses
    are the configured strings parsed in order. *)
Theorem X8_getDeps_wiring ctx d :
  outcome_of (getDeps V ctx) = Ok d ->
  exists cfg j sa,
    makeDB (NewFromConfig V) (cctx_String V) = inl (db d)
    /\ getConfig V (db d) = inl cfg
    /\ Run.cfg d = tasks_config cfg
    /\ verif d = ProofVerifier V
    /\ provider_AddressSelector V (Addresses cfg) = inl (as_ d)
    /\ StorageAuth (crypto V) (StorageRPCSecret cfg) = inl sa
    /\ si d = NewDBIndex V (NewAlertingSystem V j) (db d)
    /\ outcome_of (resolveListenAddr V (db d)) = Ok (listenAddr d)
    /\ NewLocal V ctx (cctx_String V "storage-json") (si d)
         ["http://" ++ listenAddr d ++ "/remote"] = inl (localStore d)
    /\ stor d = NewRemote V (localStore d) (si d) sa 10
    /\ lw d = NewLocalWorker V (stor d) (localStore d) (si d)
                (statestore_New V)
    /\ Forall2 (fun s a => address_NewFromString V s = inl a)
         (MinerAddresses cfg) (maddrs d).
Proof.
  intros Hok. unfold getDeps, openRepo in Hok.
  exec_in Hok; try discriminate Hok.
  all: apply (f_equal (fun o => match o with Ok x => x | _ => d end)) in Hok;
    cbv beta iota in Hok; destruct Hok;
    cbn [db cfg verif as_ si listenAddr localStore stor lw maddrs].
  all: match goal with
       | Hc : getConfig V _ = inl ?c,
         Hj : OpenFSJournalPath V _ _ = inl ?j,
         Hs : StorageAuth _ _ = inl ?h |- _ => exists c, j, h
       end.
  all: repeat (split; [first [assumption|reflexivity]|]).
  all: match goal with
       | Hp : outcome_of (parseMinerAddresses V ?l []) = Ok ?a |- _ =>
           pose proof (parseMinerAddresses_acc l []) as Hacc;
           rewrite Hp in Hacc;
           destruct Hacc as (parsed & -> & Hall & _); exact Hall
       end.
Qed.

Lemma count_app (p : Event B -> bool) (t1 t2 : list (Event B)) :
  count p (t1 ++ t2) = (count p t1 + count p t2)%nat.
Proof. unfold count. by rewrite filter_app, length_app. Qed.

Lemma resolveListenAddr_no_Init db :
  count is_Init (calls (resolveListenAddr V db)) = 0%nat.
Proof.
  unfold resolveListenAddr.
  destruct (ParseIP V _) as [ip|]; [|reflexivity].
  destruct (String.eqb _ _); [|reflexivity].
  rewrite calls_xbind, count_app. cbn [calls outcome_of try fst snd].
  destruct (GetRoutableIP V db); [|reflexivity].
  destruct (index1 _); reflexivity.
Qed.

Lemma parseMinerAddresses_no_Init (l : list string)
    (acc : list (MinerAddress H)) :
  count is_Init (calls (parseMinerAddresses V l acc)) = 0%nat.
Proof.
  revert acc. induction l as [|s l IH]; intros acc; [reflexivity|].
  cbn [parseMinerAddresses]. rewrite calls_xbind, count_app.
  cbn [calls outcome_of try fst snd].
  destruct (address_NewFromString V s); [|reflexivity].
  by rewrite IH.
Qed.

Lemma closers_app (t1 t2 : list (Event B)) :
  closers (t1 ++ t2) = (closers t1 ++ closers t2)%list.
Proof. apply omap_app. Qed.

Lemma resolveListenAddr_no_closer db :
  closers (calls (resolveListenAddr V db)) = [].
Proof.
  unfold resolveListenAddr.
  destruct (ParseIP V _) as [ip|]; [|reflexivity].
  destruct (String.eqb _ _); [|reflexivity].
  rewrite calls_xbind, closers_app. cbn [calls outcome_of try fst snd].
  destruct (GetRoutableIP V db); [|reflexivity].
  destruct (index1 _); reflexivity.
Qed.

Lemma parseMinerAddresses_no_closer (l : list string)
    (acc : list (MinerAddress H)) :
  closers (calls (parseMinerAddresses V l acc)) = [].
Proof.
  revert acc. induction l as [|s l IH]; intros acc; [reflexivity|].
  cbn [parseMinerAddresses]. rewrite calls_xbind, closers_app.
  cbn [calls outcome_of try fst snd].
  destruct (address_NewFromString V s); [|reflexivity].
  by rewrite IH.
Qed.

(** Follow the calls of a function in the goal, splitting on the result of
    each call in turn. *)
Ltac walk_step :=
  first
    [ progress (rewrite ?calls_xbind, ?outcome_xbind, ?count_app,
                  ?closers_app)
    | progress (cbn [calls outcome_of try did xret fst snd])
    | rewrite resolveListenAddr_no_Init
    | rewrite parseMinerAddresses_no_Init
    | rewrite resolveListenAddr_no_closer
    | rewrite parseMinerAddresses_no_closer
    | match goal with
      | |- context [match ?o with inl _ => _ | inr _ => _ end] =>
          destruct o eqn:?
      | |- context [match ?o with Some _ => _ | None => _ end] =>
          destruct o eqn:?
      | |- context [if ?o then _ else _] => destruct o eqn:?
      | |- context [let '(_, _) := ?o in _] => destruct o eqn:?
      | |- context [match ?o with Ok _ => _ | Err _ => _ | Panic _ => _ end] =>
          destruct o eqn:?
      end ].

Ltac walk := repeat walk_step.

(** What a successful getDeps says about the database, the listen address
    and the local store it returns. *)
Lemma getDeps_listen ctx d :
  outcome_of (getDeps V ctx) = Ok d ->
  makeDB (NewFromConfig V) (cctx_String V) = inl (db d)
  /\ outcome_of (resolveListenAddr V (db d)) = Ok (listenAddr d)
  /\ NewLocal V ctx (cctx_String V "storage-json") (si d)
       ["http://" ++ listenAddr d ++ "/remote"] = inl (localStore d).
Proof.
  intros Hok. unfold getDeps, openRepo in Hok.
  exec_in Hok; try discriminate Hok.
  all: apply (f_equal (fun o => match o with Ok x => x | _ => d end)) in Hok;
    cbv beta iota in Hok; destruct Hok;
    cbn [db si listenAddr localStore].
  all: repeat split; assumption.
Qed.

(** X9: getDeps initialises the repo exactly when the repo could be opened
    and reports that it does not exist, and then once; when the
    initialisation fails, its error is returned and nothing else is
    called: the database is not opened. *)
Theorem X9_repo_initialised_when_missing ctx :
  count is_Init (calls (getDeps V ctx))
  = match repo_NewFS V (cctx_String V (FlagRepoPath V)) with
    | inl r => match Exists V r with inl false => 1%nat | _ => 0%nat end
    | inr _ => 0%nat
    end
  /\ (forall r err,
        repo_NewFS V (cctx_String V (FlagRepoPath V)) = inl r ->
        Exists V r = inl false ->
        Init V r = Some err ->
        getDeps V ctx
        = ([E_Println (cctx_String V (FlagRepoPath V));
            E_NewFS (cctx_String V (FlagRepoPath V)); E_Exists; E_Init],
           Err err)).
Proof.
  split.
  - unfold getDeps, openRepo.
    walk; first [reflexivity|simpl in *; congruence].
  - intros r err Hr He Hi. unfold getDeps, openRepo.
    cbv zeta. unfold did at 1, try at 1 2, xbind at 3 4 5.
    rewrite Hr. cbn [xbind]. rewrite He. cbn [negb]. rewrite Hi.
    reflexivity.
Qed.

Lemma openRepo_no_closer : closers (calls (openRepo V)) = [].
Proof. unfold openRepo. walk; reflexivity. Qed.

(** X19: getDeps starts the goroutine that closes the full-node
    connection and the journal at most once, and exactly when it obtained
    the full-node API: as the very next step, with the closer that call
    returned and the journal opened just before.  Whatever happens
    afterwards (StorageAuth, the routable address, the local store or a
    miner address failing, or the index panic) the goroutine stays started
    and no other is.  Without it getDeps does not succeed; with it, the
    node API in the dependencies returned is the one that closer belongs
    to. *)
Theorem X19_closer_started_with_node_api ctx :
  ((closers (calls (getDeps V ctx)) = []
    /\ forall d, outcome_of (getDeps V ctx) <> Ok d)
   \/ exists dbh cfg de j full c,
        makeDB (NewFromConfig V) (cctx_String V) = inl dbh
        /\ getConfig V dbh = inl cfg
        /\ OpenFSJournalPath V (cctx_String V "journal") de = inl j
        /\ GetFullNodeAPIV1LotusProvider V (ChainApiInfo cfg)
           = inl (full, c)
        /\ closers (calls (getDeps V ctx)) = [(c, j)]
        /\ forall d, outcome_of (getDeps V ctx) = Ok d -> Run.full d = full)
  /\ (forall (r : Repo B) dbh (cfg : ConfigFile H B)
        (as0 : AddressSelector H) (de : DisabledEvents B) (j : Journal B)
        (full : FullNode H) (c : Closer B),
        outcome_of (openRepo V) = Ok r ->
        makeDB (NewFromConfig V) (cctx_String V) = inl dbh ->
        getConfig V dbh = inl cfg ->
        provider_AddressSelector V (Addresses cfg) = inl as0 ->
        ParseDisabledEvents V (Journal_DisabledEvents cfg) = inl de ->
        OpenFSJournalPath V (cctx_String V "journal") de = inl j ->
        GetFullNodeAPIV1LotusProvider V (ChainApiInfo cfg)
        = inl (full, c) ->
        closers (calls (getDeps V ctx)) = [(c, j)]
        /\ exists rest,
             calls (getDeps V ctx)
             = (calls (openRepo V)
                ++ [E_makeDB (dbConfig (cctx_String V)); E_getConfig;
                    E_Debugw; E_AddressSelector;
                    E_ParseDisabledEvents (Journal_DisabledEvents cfg);
                    E_OpenFSJournalPath (cctx_String V "journal");
                    E_GetFullNodeAPI (ChainApiInfo cfg);
                    E_go_closer c j]
                ++ rest)%list)
  /\ (closers (calls (getDeps V ctx)) <> [] ->
      exists (r : Repo B) dbh (cfg : ConfigFile H B)
        (as0 : AddressSelector H) (de : DisabledEvents B) (j : Journal B)
        (full : FullNode H) (c : Closer B),
        outcome_of (openRepo V) = Ok r
        /\ makeDB (NewFromConfig V) (cctx_String V) = inl dbh
        /\ getConfig V dbh = inl cfg
        /\ provider_AddressSelector V (Addresses cfg) = inl as0
        /\ ParseDisabledEvents V (Journal_DisabledEvents cfg) = inl de
        /\ OpenFSJournalPath V (cctx_String V "journal") de = inl j
        /\ GetFullNodeAPIV1LotusProvider V (ChainApiInfo cfg)
           = inl (full, c)).
Proof.
  split; [|split].
  - unfold getDeps, openRepo. walk.
    all: first
      [ left; split; [reflexivity|discriminate]
      | right; do 6 eexists;
        repeat (split; [first [eassumption|reflexivity]|]);
        first [discriminate | intros d' [= <-]; reflexivity] ].
  - intros r dbh cfg as0 de j full c Hr Hdb Hcfg Has Hde Hj Hfull.
    unfold getDeps.
    rewrite calls_xbind, Hr.
    rewrite calls_xbind; cbn [calls outcome_of try did fst snd]; rewrite Hdb.
    rewrite calls_xbind; cbn [calls outcome_of try did fst snd]; rewrite Hcfg.
    rewrite calls_xbind; cbn [calls outcome_of try did fst snd].
    rewrite calls_xbind; cbn [calls outcome_of try did fst snd]; rewrite Has.
    rewrite calls_xbind; cbn [calls outcome_of try did fst snd]; rewrite Hde.
    rewrite calls_xbind; cbn [calls outcome_of try did fst snd]; rewrite Hj.
    rewrite calls_xbind; cbn [calls outcome_of try did fst snd];
      rewrite Hfull.
    rewrite calls_xbind; cbn [calls outcome_of try did fst snd].
    split; [|eexists; reflexivity].
    rewrite !closers_app, openRepo_no_closer.
    walk; reflexivity.
  - unfold getDeps.
    repeat first [walk_step | rewrite openRepo_no_closer].
    all: first
      [ intros Hne; exfalso; apply Hne; reflexivity
      | intros _; do 8 eexists;
        repeat (split; [first [eassumption|reflexivity]|]);
        first [eassumption|reflexivity] ].
Qed.

(** X10: when everything up to the full-node API succeeds and StorageAuth
    refuses the configured secret, getDeps returns an error whose text
    contains the configured secret itself, between the text
    [StorageRPCSecret=] and a line break.  The goroutine that will close
    the full-node connection and the journal has been started by then, and
    StorageAuth is the last call made. *)
Theorem X10_secret_error_discloses_secret ctx (r : Repo B) dbh
    (cfg : ConfigFile H B) (as0 : AddressSelector H) (de : DisabledEvents B)
    (j : Journal B) (full : FullNode H) (closer : Closer B) (err : string) :
  outcome_of (openRepo V) = Ok r ->
  makeDB (NewFromConfig V) (cctx_String V) = inl dbh ->
  getConfig V dbh = inl cfg ->
  provider_AddressSelector V (Addresses cfg) = inl as0 ->
  ParseDisabledEvents V (Journal_DisabledEvents cfg) = inl de ->
  OpenFSJournalPath V (cctx_String V "journal") de = inl j ->
  GetFullNodeAPIV1LotusProvider V (ChainApiInfo cfg) = inl (full, closer) ->
  StorageAuth (crypto V) (StorageRPCSecret cfg) = inr err ->
  outcome_of (getDeps V ctx) = Err (secretError err (StorageRPCSecret cfg))
  /\ (exists pre post,
        secretError err (StorageRPCSecret cfg)
        = pre ++ "StorageRPCSecret=" ++ StorageRPCSecret cfg ++ newline
              ++ post)
  /\ In (E_go_closer closer j) (calls (getDeps V ctx))
  /\ last (calls (getDeps V ctx))
     = Some (E_StorageAuth (StorageRPCSecret cfg)).
Proof.
  intros Hr Hdb Hcfg Has Hde Hj Hfull Hsa.
  assert (Hcalls : calls (getDeps V ctx)
            = (calls (openRepo V)
               ++ [E_makeDB (dbConfig (cctx_String V)); E_getConfig;
                   E_Debugw; E_AddressSelector;
                   E_ParseDisabledEvents (Journal_DisabledEvents cfg);
                   E_OpenFSJournalPath (cctx_String V "journal");
                   E_GetFullNodeAPI (ChainApiInfo cfg);
                   E_go_closer closer j;
                   E_StorageAuth (StorageRPCSecret cfg)])%list).
  { unfold getDeps.
    rewrite calls_xbind, Hr.
    rewrite calls_xbind; cbn [calls outcome_of try did fst snd]; rewrite Hdb.
    rewrite calls_xbind; cbn [calls outcome_of try did fst snd]; rewrite Hcfg.
    rewrite calls_xbind; cbn [calls outcome_of try did fst snd].
    rewrite calls_xbind; cbn [calls outcome_of try did fst snd]; rewrite Has.
    rewrite calls_xbind; cbn [calls outcome_of try did fst snd]; rewrite Hde.
    rewrite calls_xbind; cbn [calls outcome_of try did fst snd]; rewrite Hj.
    rewrite calls_xbind; cbn [calls outcome_of try did fst snd];
      rewrite Hfull.
    rewrite calls_xbind; cbn [calls outcome_of try did fst snd].
    rewrite calls_xbind; cbn [calls outcome_of try did fst snd]; rewrite Hsa.
    reflexivity. }
  split; [|split; [|split]].
  - unfold getDeps.
    rewrite outcome_xbind, Hr.
    rewrite outcome_xbind; cbn [calls outcome_of try did fst snd];
      rewrite Hdb.
    rewrite outcome_xbind; cbn [calls outcome_of try did fst snd];
      rewrite Hcfg.
    rewrite outcome_xbind; cbn [calls outcome_of try did fst snd].
    rewrite outcome_xbind; cbn [calls outcome_of try did fst snd];
      rewrite Has.
    rewrite outcome_xbind; cbn [calls outcome_of try did fst snd];
      rewrite Hde.
    rewrite outcome_xbind; cbn [calls outcome_of try did fst snd];
      rewrite Hj.
    rewrite outcome_xbind; cbn [calls outcome_of try did fst snd];
      rewrite Hfull.
    rewrite outcome_xbind; cbn [calls outcome_of try did fst snd].
    rewrite outcome_xbind; cbn [calls outcome_of try did fst snd];
      rewrite Hsa.
    reflexivity.
  - exists ("'" ++ err ++ "' while parsing the config toml's " ++ newline
            ++ tab ++ "[Apis]" ++ newline ++ tab),
      "Get it with: jq .PrivateKey ~/.lotus-miner/keystore/MF2XI2BNNJ3XILLQOJUXMYLUMU".
    unfold secretError.
    rewrite !string_app_assoc. reflexivity.
  - rewrite Hcalls. apply in_or_app. right. simpl. tauto.
  - rewrite Hcalls.
    rewrite last_app. reflexivity.
Qed.

End Facts.

Lemma X8_witness :
  outcome_of
    (getDeps (SampleBoot.env "10.0.0.1:12300" ["f01234"] "key" true)
       (tt : Ctx Sample.H))
  = Ok (Sample.deps true false)
  /\ Forall2 (fun s a => SampleBoot.newFromString s = inl a)
       ["f01234"] (maddrs (Sample.deps true false)).
Proof.
  assert (Hok : outcome_of
            (getDeps (SampleBoot.env "10.0.0.1:12300" ["f01234"] "key" true)
               (tt : Ctx Sample.H))
          = Ok (Sample.deps true false))
    by (vm_compute; reflexivity).
  split; [exact Hok|].
  destruct (X8_getDeps_wiring _ _ _ Hok)
    as (cfg & j & sa & _ & Hcfg & _ & _ & _ & _ & _ & _ & _ & _ & _ & Hall).
  injection Hcfg as <-. exact Hall.
Defined.

Lemma X19_witness :
  outcome_of
    (getDeps (SampleBoot.env "10.0.0.1:12300" [] "bad" true)
       (tt : Ctx Sample.H))
  = Err (secretError "decoding api key: illegal base64 data at input byte 0"
           "bad")
  /\ closers
       (calls (getDeps (SampleBoot.env "10.0.0.1:12300" [] "bad" true)
                 (tt : Ctx Sample.H)))
     = [(1%nat : Closer SampleBoot.B,
         "~/.lotus-provider/" : Journal SampleBoot.B)].
Proof.
  split; [reflexivity|].
  refine (proj1 (proj1 (proj2 (X19_closer_started_with_node_api
                   (SampleBoot.env "10.0.0.1:12300" [] "bad" true)
                   (tt : Ctx Sample.H)))
                   ("~/.lotusprovider" : Repo SampleBoot.B)
                   (10%nat : DB Sample.H)
                   (SampleBoot.configFile [] "bad")
                   (14%nat : AddressSelector Sample.H)
                   ("" : DisabledEvents SampleBoot.B)
                   ("~/.lotus-provider/" : Journal SampleBoot.B)
                   (11%nat : FullNode Sample.H) (1%nat : Closer SampleBoot.B)
                   _ _ _ _ _ _ _));
    reflexivity.
Defined.

Lemma X10_witness :
  outcome_of
    (getDeps (SampleBoot.env "10.0.0.1:12300" [] "bad" true)
       (tt : Ctx Sample.H))
  = Err (secretError "decoding api key: illegal base64 data at input byte 0"
           "bad").
Proof.
  refine (proj1 (X10_secret_error_discloses_secret
                   (SampleBoot.env "10.0.0.1:12300" [] "bad" true)
                   (tt : Ctx Sample.H)
                   ("~/.lotusprovider" : Repo SampleBoot.B)
                   (10%nat : DB Sample.H)
                   (SampleBoot.configFile [] "bad")
                   (14%nat : AddressSelector Sample.H)
                   ("" : DisabledEvents SampleBoot.B)
                   ("~/.lotus-provider/" : Journal SampleBoot.B)
                   (11%nat : FullNode Sample.H) (1%nat : Closer SampleBoot.B)
                   "decoding api key: illegal base64 data at input byte 0"
                   _ _ _ _ _ _ _ _));
    reflexivity.
Defined.

Lemma X4_witness :
  resolveListenAddr (SampleBoot.env "10.0.0.1:12300" [] "key" true)
    (10%nat : DB Sample.H)
  = ([], Ok "10.0.0.1:12300").
Proof.
  apply (X4_listen_address_kept
           (SampleBoot.env "10.0.0.1:12300" [] "key" true)).
  intros ip. vm_compute. intros [= <-]. discriminate.
Defined.

Lemma X5_witness :
  resolveListenAddr (SampleBoot.env "0.0.0.0:12300:9" [] "key" true)
    (10%nat : DB Sample.H)
  = ([E_GetRoutableIP], Ok "192.168.1.7:12300").
Proof.
  apply (X5_unspecified_host_replaced
           (SampleBoot.env "0.0.0.0:12300:9" [] "key" true)
           (10%nat : DB Sample.H) "0.0.0.0" "12300:9" "192.168.1.7"
           ([0; 0; 0; 0] : IP SampleBoot.B));
    reflexivity.
Defined.

Lemma X6_witness :
  outcome_of
    (resolveListenAddr (SampleBoot.env "0.0.0.0" [] "key" true)
       (10%nat : DB Sample.H))
  = Panic "runtime error: index out of range [1] with length 1".
Proof.
  apply (X6_unspecified_host_without_port
           (SampleBoot.env "0.0.0.0" [] "key" true)
           (10%nat : DB Sample.H) ([0; 0; 0; 0] : IP SampleBoot.B));
    reflexivity.
Defined.

End BootFacts.

(** ** The worker's action *)

Module ActionFacts.
Import Go Trace Run.

Section Facts.
Context {H : Handles} (Wd : World H).
Implicit Types (d : Deps H) (t : list (Event H)).

Local Notation "'ctx0'" := (DaemonContext Wd).

Lemma occurrences_app (p : Event H -> bool) t1 t2 :
  occurrences p (t1 ++ t2) = (occurrences p t1 + occurrences p t2)%nat.
Proof. unfold occurrences. by rewrite filter_app, length_app. Qed.

Lemma occurrences_cons (p : Event H -> bool) e t :
  occurrences p (e :: t) = ((if p e then 1 else 0) + occurrences p t)%nat.
Proof.
  unfold occurrences. destruct (p e) eqn:Hp.
  - by rewrite filter_cons_True.
  - rewrite filter_cons_False; [done|]. by rewrite Hp.
Qed.

(** In a list that ends with its only event of a kind, that event can be
    found in one place only. *)
Lemma split_at_last (p : Event H -> bool) t (x y : Event H) pre post :
  occurrences p t = 0%nat -> p x = true ->
  (pre ++ x :: post)%list = (t ++ [y])%list ->
  pre = t /\ x = y /\ post = [].
Proof.
  intros Ht Hx. revert pre. induction t as [|a t IH]; intros pre Heq.
  - destruct pre as [|b pre]; simpl in Heq.
    + by injection Heq as -> <-.
    + injection Heq as _ Heq. by destruct pre.
  - rewrite occurrences_cons in Ht.
    destruct (p a) eqn:Hpa; [discriminate|].
    destruct pre as [|b pre]; simpl in Heq.
    + injection Heq as -> _. congruence.
    + injection Heq as -> Heq.
      destruct (IH Ht pre Heq) as (-> & -> & ->). done.
Qed.

(** The calls of the task selection. *)
Lemma selectTasks_calls d :
  trace (selectTasks Wd ctx0 d)
  = ((if EnableWindowPost (Subsystems (cfg d)) then [scheduler_call ctx0 d]
      else [])
     ++ match result (selectTasks Wd ctx0 d) with
        | inl _ =>
            if EnableWinningPost (Subsystems (cfg d)) then [winning_call d]
            else []
        | inr _ => []
        end)%list.
Proof.
  unfold selectTasks, scheduler_call, winning_call.
  destruct (EnableWindowPost _); cbn [bind call ret trace result fst snd].
  - destruct (provider_WindowPostScheduler Wd _ _ _ _ _ _ _ _ _ _ _ _)
      as [[[a b] c]|err]; cbn [bind call ret trace result fst snd];
      [destruct (EnableWinningPost _)|]; reflexivity.
  - destruct (EnableWinningPost _); reflexivity.
Qed.

(** The ways through the action. *)
Lemma Action_eq :
  Action Wd
  = match setenv_result Wd with
    | Some err => ([Call_Setenv "BELLMAN_NO_GPU" "true"], Some err)
    | None =>
        match getDeps Wd ctx0 with
        | inr err => (prelude Wd, Some err)
        | inl d =>
            let sel := selectTasks Wd ctx0 d in
            match result sel with
            | inr err => ((prelude Wd ++ trace sel)%list, Some err)
            | inl tasks =>
                match harmonytask_New Wd (db d) tasks (listenAddr d) with
                | inr err =>
                    ((prelude Wd ++ trace sel
                      ++ [Log_tasks tasks;
                          Call_harmonytask_New (db d) tasks (listenAddr d)])%list,
                     Some err)
                | inl e =>
                    ((prelude Wd ++ trace sel
                      ++ [Log_tasks tasks;
                          Call_harmonytask_New (db d) tasks (listenAddr d);
                          Serve_until_shutdown]
                      ++ [Call_GracefullyTerminate e (dmul 3600 Second)])%list,
                     None)
                end
            end
        end
    end.
Proof.
  unfold Action, setenv_result, prelude. cbv zeta.
  destruct (negb _); cbn [bind call ret];
    [destruct (os_Setenv Wd _ _); [reflexivity|]|];
    (destruct (cctx_Bool Wd "manage-fdlimit");
       [destruct (ManageFdLimit Wd)|]; cbn [bind call ret]);
    (destruct (getDeps Wd _) as [d|err]; [|reflexivity]);
    unfold result, trace;
    (destruct (selectTasks Wd _ d) as [ts [tasks|err]]; cbn [fst snd];
       cbn [bind call ret];
       [|rewrite <- ?app_assoc, ?app_nil_r; reflexivity]);
    (destruct (harmonytask_New Wd _ _ _); cbn [bind call ret]);
    rewrite <- ?app_assoc, ?app_nil_r; reflexivity.
Qed.

Lemma prelude_no_terminate : occurrences is_terminate (prelude Wd) = 0%nat.
Proof.
  unfold prelude.
  destruct (negb _), (cctx_Bool Wd "manage-fdlimit");
    try destruct (ManageFdLimit Wd); reflexivity.
Qed.

Lemma selectTasks_no_terminate d :
  occurrences is_terminate (trace (selectTasks Wd ctx0 d)) = 0%nat.
Proof.
  rewrite selectTasks_calls.
  destruct (EnableWindowPost _); destruct (result (selectTasks Wd ctx0 d));
    try destruct (EnableWinningPost _); reflexivity.
Qed.

(** The action returns nil on one path only. *)
Lemma Action_None :
  result (Action Wd) = None ->
  exists d tasks e,
    setenv_result Wd = None
    /\ getDeps Wd ctx0 = inl d
    /\ result (selectTasks Wd ctx0 d) = inl tasks
    /\ harmonytask_New Wd (db d) tasks (listenAddr d) = inl e
    /\ trace (Action Wd)
       = ((prelude Wd ++ trace (selectTasks Wd ctx0 d)
           ++ [Log_tasks tasks;
               Call_harmonytask_New (db d) tasks (listenAddr d);
               Serve_until_shutdown])
          ++ [Call_GracefullyTerminate e (dmul 3600 Second)])%list.
Proof.
  rewrite Action_eq.
  destruct (setenv_result Wd); [discriminate|].
  destruct (getDeps Wd ctx0) as [d|]; [|discriminate]. cbv zeta.
  destruct (result (selectTasks Wd ctx0 d)) as [tasks|] eqn:Hsel;
    [|discriminate].
  destruct (harmonytask_New Wd _ _ _) as [e|] eqn:Hnew; [|discriminate].
  intros _. exists d, tasks, e. repeat split; try assumption.
  unfold trace. cbn [fst]. by rewrite <- !app_assoc.
Qed.

Lemma Action_terminate_count :
  occurrences is_terminate (trace (Action Wd))
  = match result (Action Wd) with None => 1%nat | Some _ => 0%nat end.
Proof.
  rewrite Action_eq.
  destruct (setenv_result Wd); [reflexivity|].
  destruct (getDeps Wd ctx0) as [d|]; cbv zeta;
    [|apply prelude_no_terminate].
  destruct (result (selectTasks Wd ctx0 d)) as [tasks|];
    [destruct (harmonytask_New Wd _ _ _)|];
    unfold trace at 1, result; cbn [fst snd];
    rewrite ?occurrences_app, prelude_no_terminate,
      selectTasks_no_terminate; reflexivity.
Qed.

Lemma prelude_no_serve : occurrences is_serve (prelude Wd) = 0%nat.
Proof.
  unfold prelude.
  destruct (negb _), (cctx_Bool Wd "manage-fdlimit");
    try destruct (ManageFdLimit Wd); reflexivity.
Qed.

Lemma selectTasks_no_serve d :
  occurrences is_serve (trace (selectTasks Wd ctx0 d)) = 0%nat.
Proof.
  rewrite selectTasks_calls.
  destruct (EnableWindowPost _); destruct (result (selectTasks Wd ctx0 d));
    try destruct (EnableWinningPost _); reflexivity.
Qed.

Lemma Action_serve_count :
  occurrences is_serve (trace (Action Wd))
  = match result (Action Wd) with None => 1%nat | Some _ => 0%nat end.
Proof.
  rewrite Action_eq.
  destruct (setenv_result Wd); [reflexivity|].
  destruct (getDeps Wd ctx0) as [d|]; cbv zeta;
    [|apply prelude_no_serve].
  destruct (result (selectTasks Wd ctx0 d)) as [tasks|];
    [destruct (harmonytask_New Wd _ _ _)|];
    unfold trace at 1, result; cbn [fst snd];
    rewrite ?occurrences_app, prelude_no_serve,
      selectTasks_no_serve; reflexivity.
Qed.

Lemma occurrences_In (p : Event H -> bool) e t :
  In e t -> p e = true -> (0 < occurrences p t)%nat.
Proof.
  intros Hin Hp. apply in_split in Hin as (t1 & t2 & ->).
  rewrite occurrences_app, occurrences_cons, Hp. lia.
Qed.

(** The action returns nil when the engine could be created. *)
Lemma Action_created d tasks e :
  setenv_result Wd = None ->
  getDeps Wd ctx0 = inl d ->
  result (selectTasks Wd ctx0 d) = inl tasks ->
  harmonytask_New Wd (db d) tasks (listenAddr d) = inl e ->
  Action Wd
  = ((prelude Wd ++ trace (selectTasks Wd ctx0 d)
      ++ [Log_tasks tasks;
          Call_harmonytask_New (db d) tasks (listenAddr d);
          Serve_until_shutdown]
      ++ [Call_GracefullyTerminate e (dmul 3600 Second)])%list, None).
Proof.
  intros Hs Hd Hsel Hnew. rewrite Action_eq, Hs, Hd. cbv zeta.
  by rewrite Hsel, Hnew.
Qed.

(** X11: the action returns nil exactly when the task engine could be
    created, that is when setting the environment, getDeps, the task
    selection and [harmonytask.New] all succeeded; exactly then it serves
    until shutdown, and exactly then the engine is told to terminate
    gracefully, once.  That call is the last thing the action does, on the
    engine [harmonytask.New] returned, with a grace period of one hour,
    right after waiting for the shutdown; on every path that returns an
    error the action neither serves nor terminates an engine. *)
Theorem X11_engine_terminated_iff_created :
  (result (Action Wd) = None
   <-> exists d tasks e,
         setenv_result Wd = None
         /\ getDeps Wd ctx0 = inl d
         /\ result (selectTasks Wd ctx0 d) = inl tasks
         /\ harmonytask_New Wd (db d) tasks (listenAddr d) = inl e)
  /\ (forall d tasks e,
        setenv_result Wd = None ->
        getDeps Wd ctx0 = inl d ->
        result (selectTasks Wd ctx0 d) = inl tasks ->
        harmonytask_New Wd (db d) tasks (listenAddr d) = inl e ->
        exists pre,
          trace (Action Wd)
          = (pre ++ [Call_harmonytask_New (db d) tasks (listenAddr d);
                     Serve_until_shutdown;
                     Call_GracefullyTerminate e (3600 * Second)])%list)
  /\ (result (Action Wd) = None
      <-> In Serve_until_shutdown (trace (Action Wd)))
  /\ (result (Action Wd) = None
      <-> occurrences is_terminate (trace (Action Wd)) = 1%nat)
  /\ (occurrences is_terminate (trace (Action Wd)) <= 1)%nat
  /\ (occurrences is_serve (trace (Action Wd)) <= 1)%nat
  /\ (forall pre post e dur,
        trace (Action Wd)
        = (pre ++ Call_GracefullyTerminate e dur :: post)%list ->
        post = [] /\ dur = 3600 * Second /\ dur = 3600000000000
        /\ last pre = Some Serve_until_shutdown
        /\ exists d tasks,
             getDeps Wd ctx0 = inl d
             /\ harmonytask_New Wd (db d) tasks (listenAddr d) = inl e
             /\ In (Call_harmonytask_New (db d) tasks (listenAddr d)) pre).
Proof.
  pose proof Action_terminate_count as Hc.
  pose proof Action_serve_count as Hsv.
  split; [|split; [|split; [|split; [|split; [|split]]]]].
  - split.
    + intros Hres.
      destruct (Action_None Hres) as (d & tasks & e & Hs & Hd & Hsel & Hn & _).
      by exists d, tasks, e.
    + intros (d & tasks & e & Hs & Hd & Hsel & Hn).
      by rewrite (Action_created _ _ _ Hs Hd Hsel Hn).
  - intros d tasks e Hs Hd Hsel Hn.
    rewrite (Action_created _ _ _ Hs Hd Hsel Hn). unfold trace. cbn [fst].
    exists (prelude Wd ++ trace (selectTasks Wd ctx0 d)
            ++ [Log_tasks tasks])%list.
    rewrite <- !app_assoc. reflexivity.
  - split.
    + intros Hres.
      destruct (Action_None Hres) as (d & tasks & e & _ & _ & _ & _ & ->).
      rewrite !in_app_iff. left. right. right. simpl. tauto.
    + intros Hin. apply (occurrences_In is_serve) in Hin; [|reflexivity].
      rewrite Hsv in Hin. destruct (result (Action Wd)); [lia|reflexivity].
  - rewrite Hc. destruct (result (Action Wd)); split; congruence.
  - rewrite Hc. destruct (result (Action Wd)); lia.
  - rewrite Hsv. destruct (result (Action Wd)); lia.
  - intros pre post e dur Ht.
    assert (Hres : result (Action Wd) = None).
    { rewrite Ht, occurrences_app, occurrences_cons in Hc.
      cbn [is_terminate] in Hc.
      destruct (result (Action Wd)); [lia|reflexivity]. }
    destruct (Action_None Hres) as (d & tasks & e' & _ & Hd & _ & Hnew & Htr).
    rewrite Htr in Ht. symmetry in Ht.
    apply split_at_last with (p := is_terminate) in Ht as (-> & Heq & ->);
      [|by rewrite !occurrences_app, prelude_no_terminate,
           selectTasks_no_terminate|reflexivity].
    injection Heq as -> ->.
    split; [reflexivity|]. split; [reflexivity|]. split; [reflexivity|].
    split.
    + rewrite !app_assoc. by rewrite last_app.
    + exists d, tasks. split; [exact Hd|]. split; [exact Hnew|].
      rewrite !in_app_iff. right. right. right. left. reflexivity.
Qed.

Lemma without_errorf_app t1 t2 :
  without_errorf (t1 ++ t2) = (without_errorf t1 ++ without_errorf t2)%list.
Proof. apply filter_app. Qed.

Lemma prelude_without_errorf (W : World H) :
  without_errorf (prelude W)
  = ((if negb (cctx_Bool W "enable-gpu-proving") then
        [Call_Setenv "BELLMAN_NO_GPU" "true"]
      else [])
     ++ (if cctx_Bool W "manage-fdlimit" then [Call_ManageFdLimit] else [])
     ++ [Call_getDeps])%list.
Proof.
  unfold prelude.
  destruct (negb _), (cctx_Bool W "manage-fdlimit");
    try destruct (ManageFdLimit W); reflexivity.
Qed.

Lemma selectTasks_without_errorf d :
  without_errorf (trace (selectTasks Wd ctx0 d))
  = trace (selectTasks Wd ctx0 d).
Proof.
  rewrite selectTasks_calls.
  destruct (EnableWindowPost _); destruct (result (selectTasks Wd ctx0 d));
    try destruct (EnableWinningPost _); reflexivity.
Qed.

(** X13: when window post is enabled and the scheduler cannot be built,
    the action returns the scheduler's error right after that call: no
    winning-post task is built, even if winning post is enabled, and the
    task engine is not created. *)
Theorem X13_scheduler_failure_stops_action d err :
  setenv_result Wd = None ->
  getDeps Wd ctx0 = inl d ->
  EnableWindowPost (Subsystems (cfg d)) = true ->
  scheduler_result Wd ctx0 d = inr err ->
  Action Wd = ((prelude Wd ++ [scheduler_call ctx0 d])%list, Some err)
  /\ occurrences is_winning_ctor (trace (Action Wd)) = 0%nat
  /\ registered (trace (Action Wd)) = [].
Proof.
  intros Hs Hd Hw Hf.
  assert (Hsel : result (selectTasks Wd ctx0 d) = inr err)
    by (by rewrite RunFacts.selectTasks_result, Hw, Hf).
  assert (Ha : Action Wd
               = ((prelude Wd ++ [scheduler_call ctx0 d])%list, Some err)).
  { rewrite Action_eq, Hs, Hd. cbv zeta. rewrite Hsel.
    by rewrite selectTasks_calls, Hw, Hsel, app_nil_r. }
  split; [exact Ha|]. rewrite Ha. unfold trace, prelude. cbn [fst].
  destruct (negb _), (cctx_Bool Wd "manage-fdlimit");
    try destruct (ManageFdLimit Wd); split; reflexivity.
Qed.

(** X14: the variable BELLMAN_NO_GPU is set to [true] exactly when the
    flag enable-gpu-proving is off, once and before anything else; when
    setting it fails the action returns that error and does nothing
    more. *)
Theorem X14_gpu_variable_set_first :
  occurrences is_setenv (trace (Action Wd))
  = (if cctx_Bool Wd "enable-gpu-proving" then 0%nat else 1%nat)
  /\ (cctx_Bool Wd "enable-gpu-proving" = false ->
      head (trace (Action Wd)) = Some (Call_Setenv "BELLMAN_NO_GPU" "true"))
  /\ (forall err,
        cctx_Bool Wd "enable-gpu-proving" = false ->
        os_Setenv Wd "BELLMAN_NO_GPU" "true" = Some err ->
        Action Wd = ([Call_Setenv "BELLMAN_NO_GPU" "true"], Some err)).
Proof.
  split; [|split].
  - rewrite Action_eq. unfold setenv_result, prelude.
    destruct (cctx_Bool Wd "enable-gpu-proving"); cbn [negb];
      [|destruct (os_Setenv Wd _ _); [reflexivity|]];
      (destruct (getDeps Wd ctx0) as [d|]; cbv zeta;
         [|destruct (cctx_Bool Wd "manage-fdlimit");
           try destruct (ManageFdLimit Wd); reflexivity]);
      rewrite selectTasks_calls;
      destruct (result (selectTasks Wd ctx0 d));
      try destruct (harmonytask_New Wd _ _ _);
      destruct (cctx_Bool Wd "manage-fdlimit");
      try destruct (ManageFdLimit Wd); destruct (EnableWindowPost _);
      try destruct (EnableWinningPost _); reflexivity.
  - intros Hg. rewrite Action_eq. unfold setenv_result, prelude.
    rewrite Hg. cbn [negb].
    destruct (os_Setenv Wd _ _); [reflexivity|].
    destruct (getDeps Wd ctx0) as [d|]; cbv zeta; [|reflexivity].
    destruct (result (selectTasks Wd ctx0 d));
      try destruct (harmonytask_New Wd _ _ _); reflexivity.
  - intros err Hg He. rewrite Action_eq. unfold setenv_result.
    by rewrite Hg, He.
Qed.

(** The calls of the action that take their arguments from getDeps. *)
Lemma Action_calls_use_deps (e : Event H) :
  In e (trace (Action Wd)) ->
  match e with
  | Call_WindowPostScheduler _ _ _ _ _ _ _ _ _ _ _ _ =>
      exists d, getDeps Wd ctx0 = inl d
        /\ EnableWindowPost (Subsystems (cfg d)) = true
        /\ e = scheduler_call ctx0 d
  | Call_NewWinPostTask _ _ _ _ _ _ =>
      exists d, getDeps Wd ctx0 = inl d
        /\ EnableWinningPost (Subsystems (cfg d)) = true
        /\ e = winning_call d
  | Call_harmonytask_New dbh tasks addr =>
      exists d, getDeps Wd ctx0 = inl d
        /\ dbh = db d /\ addr = listenAddr d
        /\ result (selectTasks Wd ctx0 d) = inl tasks
  | _ => True
  end.
Proof.
  rewrite Action_eq.
  destruct (setenv_result Wd).
  { intros [<-|[]]. exact I. }
  assert (Hpre : In e (prelude Wd) ->
            match e with
            | Call_Setenv _ _ | Call_ManageFdLimit | Log_Errorf _
            | Call_getDeps => True
            | _ => False
            end).
  { unfold prelude.
    destruct (negb _), (cctx_Bool Wd "manage-fdlimit");
      try destruct (ManageFdLimit Wd); simpl;
      intuition (subst; exact I). }
  destruct (getDeps Wd ctx0) as [d|] eqn:Hd; cbv zeta.
  2: { intros Hin. apply Hpre in Hin. by destruct e. }
  assert (Hsel : In e (trace (selectTasks Wd ctx0 d)) ->
            (EnableWindowPost (Subsystems (cfg d)) = true
             /\ e = scheduler_call ctx0 d)
            \/ (EnableWinningPost (Subsystems (cfg d)) = true
                /\ e = winning_call d)).
  { rewrite selectTasks_calls.
    destruct (EnableWindowPost _); destruct (result (selectTasks Wd ctx0 d));
      try destruct (EnableWinningPost _); simpl; intuition (subst; auto). }
  intros Hin.
  assert (Hin' : In e (prelude Wd) \/ In e (trace (selectTasks Wd ctx0 d))
            \/ (exists tasks,
                  result (selectTasks Wd ctx0 d) = inl tasks
                  /\ (e = Log_tasks tasks
                      \/ e = Call_harmonytask_New (db d) tasks (listenAddr d)))
            \/ e = Serve_until_shutdown
            \/ exists en dur, e = Call_GracefullyTerminate en dur).
  { destruct (result (selectTasks Wd ctx0 d)) as [tasks|] eqn:Hres;
      [destruct (harmonytask_New Wd _ _ _)|];
      unfold trace at 1 in Hin; cbn [fst] in Hin;
      rewrite ?in_app_iff in Hin; simpl in Hin;
      intuition eauto 10. }
  clear Hin.
  destruct Hin' as [Hin|[Hin|[(tasks & Hres & [->| ->])|[->|(en & dur & ->)]]]];
    try exact I.
  - apply Hpre in Hin. by destruct e.
  - destruct (Hsel Hin) as [[Hw ->]|[Hw ->]]; by exists d.
  - by exists d.
Qed.

(** X15: every call the action makes after getDeps takes its arguments
    from what getDeps returned.  The window-post scheduler is called only
    when window post is enabled, with the action's context, cfg.Fees,
    cfg.Proving, the node API, verifier, worker, address selector, miner
    addresses, database, store and index of the dependencies and
    cfg.Subsystems.WindowPostMaxTasks, in this order; the winning-post task
    is built only when winning post is enabled, from
    cfg.Subsystems.WinningPostMaxTasks and the database, worker, verifier,
    node API and miner addresses; the task engine is created on the
    database and the listen address of the dependencies, with the tasks
    selected. *)
Theorem X15_calls_take_arguments_from_deps :
  (forall c fc pc api v l a m dbh st ix mx,
     In (Call_WindowPostScheduler c fc pc api v l a m dbh st ix mx)
        (trace (Action Wd)) ->
     exists d, getDeps Wd ctx0 = inl d
       /\ EnableWindowPost (Subsystems (cfg d)) = true
       /\ c = ctx0 /\ fc = Fees (cfg d) /\ pc = Proving (cfg d)
       /\ api = full d /\ v = verif d /\ l = lw d /\ a = as_ d
       /\ m = maddrs d /\ dbh = db d /\ st = stor d /\ ix = si d
       /\ mx = WindowPostMaxTasks (Subsystems (cfg d)))
  /\ (forall mx dbh l v api m,
        In (Call_NewWinPostTask mx dbh l v api m) (trace (Action Wd)) ->
        exists d, getDeps Wd ctx0 = inl d
          /\ EnableWinningPost (Subsystems (cfg d)) = true
          /\ mx = WinningPostMaxTasks (Subsystems (cfg d))
          /\ dbh = db d /\ l = lw d /\ v = verif d /\ api = full d
          /\ m = maddrs d)
  /\ (forall dbh tasks addr,
        In (Call_harmonytask_New dbh tasks addr) (trace (Action Wd)) ->
        exists d, getDeps Wd ctx0 = inl d
          /\ dbh = db d /\ addr = listenAddr d
          /\ result (selectTasks Wd ctx0 d) = inl tasks).
Proof.
  split; [|split].
  - intros c fc pc api v l a m dbh st ix mx Hin.
    apply Action_calls_use_deps in Hin as (d & Hd & Hw & Heq).
    injection Heq as -> -> -> -> -> -> -> -> -> -> -> ->.
    exists d. repeat split; assumption.
  - intros mx dbh l v api m Hin.
    apply Action_calls_use_deps in Hin as (d & Hd & Hw & Heq).
    injection Heq as -> -> -> -> -> ->.
    exists d. repeat split; assumption.
  - intros dbh tasks addr Hin.
    by apply Action_calls_use_deps in Hin.
Qed.

End Facts.

(** X12: an error of [ulimit.ManageFdLimit] is logged and nothing more.
    Whatever it answers, the action returns the same result and makes the
    same calls, the log line apart; the line is written exactly when the
    flag manage-fdlimit is set and the call failed, right after the call
    and before getDeps, which is still called. *)
Theorem X12_fd_limit_error_logged_not_returned {H : Handles}
    (Wd : World H) (e : error) :
  result (Action (with_ManageFdLimit e Wd)) = result (Action Wd)
  /\ without_errorf (trace (Action (with_ManageFdLimit e Wd)))
     = without_errorf (trace (Action Wd))
  /\ occurrences is_errorf (trace (Action Wd))
     = match setenv_result Wd with
       | Some _ => 0%nat
       | None =>
           if cctx_Bool Wd "manage-fdlimit" then
             match ManageFdLimit Wd with Some _ => 1%nat | None => 0%nat end
           else 0%nat
       end
  /\ (forall err,
        setenv_result Wd = None ->
        cctx_Bool Wd "manage-fdlimit" = true ->
        ManageFdLimit Wd = Some err ->
        exists pre rest,
          pre = (if negb (cctx_Bool Wd "enable-gpu-proving") then
                   [Call_Setenv "BELLMAN_NO_GPU" "true"]
                 else [])
          /\ trace (Action Wd)
             = (pre ++ [Call_ManageFdLimit;
                        Log_Errorf ("setting file descriptor limit: " ++ err);
                        Call_getDeps] ++ rest)%list).
Proof.
  assert (Hboth : result (Action (with_ManageFdLimit e Wd))
                  = result (Action Wd)
                  /\ without_errorf (trace (Action (with_ManageFdLimit e Wd)))
                     = without_errorf (trace (Action Wd))).
  { rewrite (Action_eq Wd).
    pose proof (Action_eq (with_ManageFdLimit e Wd)) as ->.
    change (setenv_result (with_ManageFdLimit e Wd))
      with (setenv_result Wd).
    change (getDeps (with_ManageFdLimit e Wd)) with (getDeps Wd).
    change (DaemonContext (with_ManageFdLimit e Wd)) with (DaemonContext Wd).
    change (selectTasks (with_ManageFdLimit e Wd)) with (selectTasks Wd).
    change (harmonytask_New (with_ManageFdLimit e Wd))
      with (harmonytask_New Wd).
    destruct (setenv_result Wd); [split; reflexivity|].
    destruct (getDeps Wd (DaemonContext Wd)) as [d|]; cbv zeta.
    2: { split; [reflexivity|]. unfold trace; cbn [fst].
         by rewrite !prelude_without_errorf. }
    destruct (result (selectTasks Wd (DaemonContext Wd) d)) as [tasks|];
      [destruct (harmonytask_New Wd _ _ _)|];
      (split; [reflexivity|]); unfold trace at 1 3; cbn [fst];
      rewrite !without_errorf_app, !prelude_without_errorf; reflexivity. }
  destruct Hboth as [Hres Htr].
  split; [exact Hres|]. split; [exact Htr|]. split.
  - rewrite (Action_eq Wd). unfold setenv_result, prelude.
    destruct (negb _); [destruct (os_Setenv Wd _ _); [reflexivity|]|];
      (destruct (getDeps Wd (DaemonContext Wd)) as [d|]; cbv zeta;
         [rewrite (selectTasks_calls Wd);
          destruct (result (selectTasks Wd (DaemonContext Wd) d));
          try destruct (harmonytask_New Wd _ _ _)|]);
      destruct (cctx_Bool Wd "manage-fdlimit");
      try destruct (ManageFdLimit Wd);
      try destruct (EnableWindowPost _);
      try destruct (EnableWinningPost _); reflexivity.
  - intros err Hs Hflag Herr. rewrite (Action_eq Wd), Hs.
    eexists. unfold prelude. rewrite Hflag, Herr.
    destruct (getDeps Wd (DaemonContext Wd)) as [d|]; cbv zeta;
      [destruct (result (selectTasks Wd (DaemonContext Wd) d));
       [destruct (harmonytask_New Wd _ _ _)|]|];
      unfold trace; cbn [fst]; eexists; (split; [reflexivity|]);
      rewrite <- ?app_assoc; cbn [app]; reflexivity.
Qed.

Lemma X13_witness :
  result (Action (Sample.world_without_scheduler true true))
  = Some "adding handler failed"
  /\ occurrences is_winning_ctor
       (trace (Action (Sample.world_without_scheduler true true))) = 0%nat.
Proof.
  destruct (X13_scheduler_failure_stops_action
              (Sample.world_without_scheduler true true)
              (Sample.deps true true) "adding handler failed"
              eq_refl eq_refl eq_refl eq_refl) as (Ha & Hw & _).
  split; [by rewrite Ha|exact Hw].
Defined.

End ActionFacts.

(** ** The worker's action on the dependencies of getDeps *)

Module WorkerFacts.
Import Go Trace Fallible RunBoot Run.

(** X16: when the worker's getDeps is the function of run.go, the task
    engine is created on the database makeDB opened and on the listen
    address that getDeps resolved on that database, and this is the very
    address under which the local store was announced, as
    [http://<address>/remote]. *)
Theorem X16_engine_listens_where_store_announced {H : Handles}
    {B : BootHandles} (V : Boot.Env H B) (Wd : World H) dbh tasks addr :
  Boot.runs_getDeps V Wd ->
  In (Call_harmonytask_New dbh tasks addr) (trace (Action Wd)) ->
  makeDB (Boot.NewFromConfig V) (Boot.cctx_String V) = inl dbh
  /\ outcome_of (Boot.resolveListenAddr V dbh) = Ok addr
  /\ exists d,
       getDeps Wd (DaemonContext Wd) = inl d
       /\ Boot.NewLocal V (DaemonContext Wd)
            (Boot.cctx_String V "storage-json") (si d)
            ["http://" ++ addr ++ "/remote"]
          = inl (localStore d).
Proof.
  intros Hruns Hin.
  apply ActionFacts.Action_calls_use_deps in Hin as (d & Hd & -> & -> & _).
  destruct (BootFacts.getDeps_listen V _ _ (Hruns _ _ Hd))
    as (Hdb & Hl & Hloc).
  split; [exact Hdb|]. split; [exact Hl|]. by exists d.
Qed.

Lemma X16_witness :
  outcome_of
    (Boot.resolveListenAddr
       (SampleBoot.env "10.0.0.1:12300" ["f01234"] "key" true)
       (10%nat : DB Sample.H))
  = Ok "10.0.0.1:12300".
Proof.
  assert (Hruns : Boot.runs_getDeps
            (SampleBoot.env "10.0.0.1:12300" ["f01234"] "key" true)
            (Sample.world true false)).
  { intros [] d [= <-]. vm_compute. reflexivity. }
  assert (Hin : In (Call_harmonytask_New (10%nat : DB Sample.H)
                      Sample.window_only "10.0.0.1:12300")
                   (trace (Action (Sample.world true false))))
    by (vm_compute; do 5 right; left; reflexivity).
  exact (proj1 (proj2 (X16_engine_listens_where_store_announced
                         _ _ _ _ _ Hruns Hin))).
Defined.

End WorkerFacts.

(** ** The builder's calls *)

Module BuilderFacts.
Import Go Trace Provider.

Section Facts.
Context {H : Handles} (P : Packages H).
Variables (ctx : Ctx H) (fc : LotusProviderFees) (pc : ProvingConfig H)
  (api : FullNode H) (verif : Verifier H) (lw : LocalWorker H)
  (as_ : AddressSelector H) (maddr : list (MinerAddress H)) (db : DB H)
  (stor : PathsStore H) (idx : SectorIndex H) (max : Z).

Local Notation "'sched'" :=
  (WindowPostScheduler P ctx fc pc api verif lw as_ maddr db stor idx max).
Local Notation "'computed'" :=
  (compute_result P api verif lw maddr db stor idx max).
Local Notation "'submitted'" := (submit_result P fc api as_ db).
Local Notation "'pre4'" := (prefix P api verif lw maddr db stor idx max).
Local Notation "'call5'" := (submit_call P fc api as_ db).

(** X17: when the compute task was built and the constructor of the
    submit task fails with [err], WindowPostScheduler returns
    (nil, nil, err): the compute task it has built is not returned, both
    constructors were called once, and the scheduler loop is not
    started. *)
Theorem X17_submit_failure_returns_no_task c err :
  computed = inl c ->
  submitted = inr err ->
  sched = ((pre4 ++ [call5])%list, (None, None, Some err))
  /\ count is_compute_ctor (trace sched) = 1%nat
  /\ count is_submit_ctor (trace sched) = 1%nat
  /\ count is_Go_Run (trace sched) = 0%nat.
Proof.
  intros Hc Hs.
  destruct (ProviderFacts.sched_cases P ctx fc pc api verif lw as_ maddr db
              stor idx max)
    as [(e & Hc' & Hr)|[(c' & e & _ & Hs' & Hr)|(c' & s & _ & Hs' & Hr)]].
  - congruence.
  - rewrite Hs in Hs'. injection Hs' as <-. rewrite Hr.
    repeat split.
  - congruence.
Qed.

(** X18: WindowPostScheduler builds one chain scheduler, from the node
    API, and uses it throughout: it is the scheduler handed to the
    constructors of both tasks and the one whose loop is started.  The
    message sender is built from the node API (as both the reader and the
    signer) and the database, and it is the sender handed to the submit
    task; both constructors get the caller's database and node API, the
    compute task the caller's worker, verifier and miner addresses, the
    submit task the caller's address selector. *)
Theorem X18_one_scheduler_for_both_tasks :
  (forall db' api' ft lw' verif' pcs maddr' max',
     In (Call_NewWdPostTask db' api' ft lw' verif' pcs maddr' max')
        (trace sched) ->
     pcs = chainsched_New P api /\ db' = db /\ api' = api /\ lw' = lw
     /\ verif' = verif /\ maddr' = maddr)
  /\ (forall pcs send db' api' fee as',
        In (Call_NewWdPostSubmitTask pcs send db' api' fee as')
           (trace sched) ->
        pcs = chainsched_New P api /\ send = NewSender P api api db
        /\ db' = db /\ api' = api /\ as' = as_)
  /\ (forall pcs c, In (Go_Run pcs c) (trace sched) ->
        pcs = chainsched_New P api /\ c = ctx)
  /\ (forall a, In (Call_chainsched_New a) (trace sched) -> a = api)
  /\ (forall a1 a2 db', In (Call_NewSender a1 a2 db') (trace sched) ->
        a1 = api /\ a2 = api /\ db' = db).
Proof.
  destruct (ProviderFacts.sched_cases P ctx fc pc api verif lw as_ maddr db
              stor idx max)
    as [(e & _ & Hr)|[(c & e & _ & _ & Hr)|(c & s & _ & _ & Hr)]];
    rewrite Hr; unfold trace, prefix, submit_call, the_chainSched,
      the_sender; cbn [fst app];
    repeat split; intros; simpl in *;
    repeat match goal with
           | Hx : _ \/ _ |- _ => destruct Hx as [Hx|Hx]
           | Hx : False |- _ => destruct Hx
           end; congruence.
Qed.

End Facts.

Lemma X17_witness :
  result (WindowPostScheduler (Sample.packages true false) tt Sample.fees
            (0%nat : ProvingConfig Sample.H) (11%nat : FullNode Sample.H)
            (12%nat : Verifier Sample.H) (13%nat : LocalWorker Sample.H)
            (14%nat : AddressSelector Sample.H)
            (["f01234"] : list (MinerAddress Sample.H))
            (10%nat : DB Sample.H) (15%nat : PathsStore Sample.H)
            (16%nat : SectorIndex Sample.H) 4)
  = (None, None, Some "adding handler failed").
Proof.
  destruct (X17_submit_failure_returns_no_task (Sample.packages true false)
              (tt : Ctx Sample.H) Sample.fees
              (0%nat : ProvingConfig Sample.H) (11%nat : FullNode Sample.H)
              (12%nat : Verifier Sample.H) (13%nat : LocalWorker Sample.H)
              (14%nat : AddressSelector Sample.H)
              (["f01234"] : list (MinerAddress Sample.H))
              (10%nat : DB Sample.H) (15%nat : PathsStore Sample.H)
              (16%nat : SectorIndex Sample.H) 4
              (4 : WdPostTask Sample.H) "adding handler failed"
              eq_refl eq_refl) as (Hr & _).
  by rewrite Hr.
Defined.

End BuilderFacts.
